(** * yarpc-go: interceptor composition and the crossdock behavior recorder

A shallow embedding of

- [transport/interceptor.go]: [Interceptor], [NopInterceptor],
  [ApplyInterceptor], [InterceptorFunc], [interceptedHandler],
  [nopInterceptor];
- [crossdock/client/behavior.go]: [Status], [EntryBuilder],
  [BasicEntry], [BehaviorTester], [behavior].

Go code is embedded in a state monad whose runs either return or
panic.  An interface value is [None] (the nil interface) or [Some] of
its method set; calling a method on nil panics with a nil
dereference, as the Go runtime does.  A slice is a header over a
backing array kept in the heap, so [append] writes where Go's does. *)

From Stdlib Require Import String List Bool Arith Lia.
From stdpp Require Import gmap strings list.
Import ListNotations.

Set Implicit Arguments.

(** ** Go runtime: normal return or panic, over an explicit world *)

Module gort.

(** What a goroutine panics with. *)
Inductive PanicValue : Type :=
| nilDereference                 (* invalid memory address or nil pointer dereference *)
| userPanic (msg : string).      (* panic(msg) raised by user code *)

Inductive Res (A : Type) : Type :=
| Ok (a : A)
| Panic (p : PanicValue).
Arguments Ok {A} a.
Arguments Panic {A} p.

(** A computation over a world [W]: the world reached is kept also when
  the run panics, since effects made before a panic are not undone. *)
Definition M (W A : Type) : Type := W -> Res A * W.

Definition ret {W A} (a : A) : M W A := fun w => (Ok a, w).

Definition bind {W A B} (m : M W A) (k : A -> M W B) : M W B :=
fun w =>
  match m w with
  | (Ok a, w') => k a w'
  | (Panic p, w') => (Panic p, w')
  end.

Definition panic {W A} (p : PanicValue) : M W A := fun w => (Panic p, w).

Definition isPanic {A} (r : Res A) : bool :=
match r with Ok _ => false | Panic _ => true end.

Declare Scope go_scope.
Delimit Scope go_scope with go.
Notation "x <- c1 ;; c2" := (bind c1 (fun x => c2))
(at level 100, c1 at next level, right associativity) : go_scope.
Notation "c1 ;; c2" := (bind c1 (fun _ => c2))
(at level 100, right associativity) : go_scope.

End gort.

(** ** package transport *)

Module transport.
Import gort.
Local Open Scope go_scope.

Section Interceptor.

(** [W] is everything a handler or an interceptor can read or write
    (the response sinks, context-scoped state, counters); the other
    types are the transport's own ([context.Context], [*Request],
    [ResponseWriter], the dynamic values of [error]). *)
Context {W context_Context Request ResponseWriter Err : Type}.

(** Go's [error]: nil or an error value. *)
Definition error : Type := option Err.

(** [type Handler interface { Handle(ctx, req, resw) error }]:
    nil, or a value with its [Handle] method. *)
Definition Handler : Type :=
  option (context_Context -> Request -> ResponseWriter -> M W error).

(** [h.Handle(ctx, req, resw)] on an interface value. *)
Definition Handler_Handle (h : Handler)
    (ctx : context_Context) (req : Request) (resw : ResponseWriter)
    : M W error :=
  match h with
  | Some handle => handle ctx req resw
  | None => panic nilDereference
  end.

(** [type Interceptor interface { Handle(ctx, req, resw, h Handler) error }]. *)
Definition Interceptor : Type :=
  option (context_Context -> Request -> ResponseWriter -> Handler -> M W error).

(** [i.Handle(ctx, req, resw, h)] on an interface value. *)
Definition Interceptor_Handle (i : Interceptor)
    (ctx : context_Context) (req : Request) (resw : ResponseWriter)
    (h : Handler) : M W error :=
  match i with
  | Some handle => handle ctx req resw h
  | None => panic nilDereference
  end.

(** [type nopInterceptor struct{}] *)
Inductive nopInterceptor : Type := nopInterceptor_lit.

(** [func (nopInterceptor) Handle(ctx, req, resw, handler) error] *)
Definition nopInterceptor_Handle (_ : nopInterceptor)
    (ctx : context_Context) (req : Request) (resw : ResponseWriter)
    (handler : Handler) : M W error :=
  Handler_Handle handler ctx req resw.

(** [var NopInterceptor Interceptor = nopInterceptor{}] *)
Definition NopInterceptor : Interceptor :=
  Some (nopInterceptor_Handle nopInterceptor_lit).

(** [type interceptedHandler struct { h Handler; i Interceptor }] *)
Record interceptedHandler : Type := { h : Handler; i : Interceptor }.

(** [func (h interceptedHandler) Handle(ctx, req, resw) error] *)
Definition interceptedHandler_Handle (self : interceptedHandler)
    (ctx : context_Context) (req : Request) (resw : ResponseWriter)
    : M W error :=
  Interceptor_Handle (i self) ctx req resw (h self).

(** An [interceptedHandler] used as a [Handler]. *)
Definition interceptedHandler_as_Handler (self : interceptedHandler)
    : Handler :=
  Some (interceptedHandler_Handle self).

(** [func ApplyInterceptor(h Handler, i Interceptor) Handler] *)
Definition ApplyInterceptor (h : Handler) (i : Interceptor) : Handler :=
  match i with
  | None => h
  | Some _ => interceptedHandler_as_Handler {| h := h; i := i |}
  end.

(** [type InterceptorFunc func(context.Context, *Request, ResponseWriter, Handler) error]:
    a func value, nil or a closure. *)
Definition InterceptorFunc : Type :=
  option (context_Context -> Request -> ResponseWriter -> Handler -> M W error).

(** The call [f(ctx, req, resw, h)] of a func value. *)
Definition InterceptorFunc_call (f : InterceptorFunc)
    (ctx : context_Context) (req : Request) (resw : ResponseWriter)
    (h : Handler) : M W error :=
  match f with
  | Some body => body ctx req resw h
  | None => panic nilDereference
  end.

(** [func (f InterceptorFunc) Handle(ctx, req, resw, h) error] *)
Definition InterceptorFunc_Handle (f : InterceptorFunc)
    (ctx : context_Context) (req : Request) (resw : ResponseWriter)
    (h : Handler) : M W error :=
  InterceptorFunc_call f ctx req resw h.

(** An [InterceptorFunc] used as an [Interceptor]: never the nil
    interface, even when the func itself is nil. *)
Definition InterceptorFunc_as_Interceptor (f : InterceptorFunc)
    : Interceptor :=
  Some (InterceptorFunc_Handle f).

(** The specification's requirement on an absent handler, in its own
    words: composing with a nil handler fails fast.  [ApplyInterceptor]
    is a total function with no way to refuse an argument, so what is
    left of the requirement is that every invocation of the composed
    handler panics. *)
Definition FailsFastOnNilHandler (i : Interceptor) : Prop :=
  forall ctx req resw w,
    isPanic (fst (Handler_Handle (ApplyInterceptor None i) ctx req resw w))
    = true.

End Interceptor.

End transport.


(** ** Probes: a world with an ordered log

    The observations the specification makes of a chain (entry and exit
    of an interceptor, every call of the terminal handler together with
    its arguments) are recorded in a log that only the probes write; the
    code under observation runs on its own state [St]. *)

Module probe.
Import gort transport.
Local Open Scope go_scope.

Section Probe.

Context {St context_Context Request ResponseWriter Err : Type}.

Inductive Event : Type :=
| IEnter (id : nat)
| IExit (id : nat)
| HCall (ctx : context_Context) (req : Request) (resw : ResponseWriter).

Record World : Type := { log : list Event; user : St }.

Local Abbreviation Handler :=
  (@Handler World context_Context Request ResponseWriter Err).
Local Abbreviation Interceptor :=
  (@Interceptor World context_Context Request ResponseWriter Err).
Local Abbreviation error := (@error Err).

(** Appends one event to the log. *)
Definition emit (e : Event) : M World unit :=
  fun w => (Ok tt, {| log := log w ++ [e]; user := user w |}).

(** Runs code that knows only its own state: the log is out of reach. *)
Definition liftUser {A} (m : M St A) : M World A :=
  fun w =>
    match m (user w) with
    | (r, s') => (r, {| log := log w; user := s' |})
    end.

(** The calls of the terminal handler found in a log, oldest first. *)
Fixpoint callsIn (l : list Event)
    : list (context_Context * Request * ResponseWriter) :=
  match l with
  | [] => []
  | HCall ctx req resw :: l' => (ctx, req, resw) :: callsIn l'
  | _ :: l' => callsIn l'
  end.

(** The call counter of the terminal handler. *)
Definition callCount (w : World) : nat := length (callsIn (log w)).

(** A terminal handler [H] with a call recorder: every invocation is
    logged with its arguments before the body runs.  The body is any Go
    code on [St]; it may return nil, return an error, or panic. *)
Definition probedHandler
    (body : context_Context -> Request -> ResponseWriter -> M St error)
    : Handler :=
  Some (fun ctx req resw =>
          emit (HCall ctx req resw) ;; liftUser (body ctx req resw)).

(** [i] is a pass-through interceptor carrying the probe [id]: it is not
    the nil interface, and it logs its entry, calls [next] once with the
    arguments it was given, logs its exit and returns what [next]
    returned. *)
Definition PassThrough (id : nat) (i : Interceptor) : Prop :=
  i <> None /\
  forall ctx req resw next w,
    Interceptor_Handle i ctx req resw next w
    = (emit (IEnter id) ;;
       r <- Handler_Handle next ctx req resw ;;
       emit (IExit id) ;;
       ret r) w.

(** [i] is an interceptor (not the nil interface) that never invokes its
    next handler: its run is that of [synth], code that is not given
    [next] at all. *)
Definition NeverCallsNext (i : Interceptor)
    (synth : context_Context -> Request -> ResponseWriter -> M St error)
    : Prop :=
  i <> None /\
  forall ctx req resw next w,
    Interceptor_Handle i ctx req resw next w
    = liftUser (synth ctx req resw) w.

(** [i] is an interceptor (not the nil interface) that calls its next
    handler exactly twice, both times with the arguments it was given,
    drops the first result and returns the second. *)
Definition CallsNextTwice (i : Interceptor) : Prop :=
  i <> None /\
  forall ctx req resw next w,
    Interceptor_Handle i ctx req resw next w
    = (Handler_Handle next ctx req resw ;;
       Handler_Handle next ctx req resw) w.

(** Interceptors of the three kinds, written as [InterceptorFunc]s. *)
Definition passThrough (id : nat) : Interceptor :=
  InterceptorFunc_as_Interceptor
    (Some (fun ctx req resw next =>
             emit (IEnter id) ;;
             r <- Handler_Handle next ctx req resw ;;
             emit (IExit id) ;;
             ret r)).

Definition shortCircuit
    (synth : context_Context -> Request -> ResponseWriter -> M St error)
    : Interceptor :=
  InterceptorFunc_as_Interceptor
    (Some (fun ctx req resw _ => liftUser (synth ctx req resw))).

Definition callTwice : Interceptor :=
  InterceptorFunc_as_Interceptor
    (Some (fun ctx req resw next =>
             Handler_Handle next ctx req resw ;;
             Handler_Handle next ctx req resw)).

End Probe.

Arguments Event : clear implicits.
Arguments World : clear implicits.

End probe.


(** ** package client (crossdock) *)

Module client.
Import gort.
Local Open Scope go_scope.
Local Open Scope string_scope.

(** [type Status string] *)
Definition Status : Type := string.

(** [const ( Passed Status = "passed"; Skipped = "skipped"; Failed = "failed" )] *)
Definition Passed : Status := "passed".
Definition Skipped : string := "skipped".
Definition Failed : string := "failed".

(** [type Params interface { Param(name string) string }] *)
Definition Params : Type := option (string -> string).

(** [type BasicEntry struct { Status Status; Output string }] *)
Module BasicEntry.
Record t : Type := mk { Status : client.Status; Output : string }.
End BasicEntry.

(** [interface{}]: nil, a [BasicEntry], or a value of some other dynamic
    type, all of which are gathered in [Dyn]. *)
Inductive any (Dyn : Type) : Type :=
| any_nil
| any_BasicEntry (e : BasicEntry.t)
| any_dyn (v : Dyn).
Arguments any_nil {Dyn}.
Arguments any_BasicEntry {Dyn} e.
Arguments any_dyn {Dyn} v.

(** [type EntryBuilder interface { Skip(reason string) interface{};
    Fail(message string) interface{}; Pass(output string) interface{} }]:
    nil, or a value with its three methods. *)
Module EntryBuilder.
Record methods (Dyn : Type) : Type := mk {
  Skip : string -> any Dyn;
  Fail : string -> any Dyn;
  Pass : string -> any Dyn
}.
Definition t (Dyn : Type) : Type := option (methods Dyn).
End EntryBuilder.

(** [[]interface{}]: a slice is a header, not the elements.  The nil
    slice has no array, length 0 and capacity 0; any other slice names
    its backing array, the index of its first cell in it, its length
    and its capacity.  Two slices may name the same array. *)
Module slice.
Inductive t : Type :=
| null
| mk (array off len cap : nat).
Definition len (s : t) : nat :=
  match s with null => 0 | mk _ _ n _ => n end.
Definition cap (s : t) : nat :=
  match s with null => 0 | mk _ _ _ c => c end.
(** The backing array of a slice, if it has one. *)
Definition array (s : t) : option nat :=
  match s with null => None | mk a _ _ _ => Some a end.
End slice.

(** [type BehaviorTester struct { Params; Failed bool; Skipped bool;
    Entries []interface{} }] *)
Module BehaviorTester.
Record t : Type := mk {
  Params : client.Params;
  Failed : bool;
  Skipped : bool;
  Entries : slice.t
}.
End BehaviorTester.

(** A [*BehaviorTester]: nil or the address of a tester in the heap. *)
Definition BehaviorTester_ptr : Type := option nat.

(** [type behavior struct { Params; Tester *BehaviorTester; Builder EntryBuilder }] *)
Module behavior.
Record t (Dyn : Type) : Type := mk {
  Params : client.Params;
  Tester : BehaviorTester_ptr;
  Builder : EntryBuilder.t Dyn
}.
End behavior.

Section Behavior.

Context {Dyn : Type}.

(** [fmt.Sprintf], which the package imports. *)
Variable Sprintf : string -> list (any Dyn) -> string.

(** The capacity the Go runtime picks for the new array when [append]
    outgrows an array of the given capacity (its growth policy); the
    new array is never smaller than what [append] needs, see [grown]. *)
Variable nextCap : nat -> nat.

(** The heap: the testers that have been allocated, by address (a
    behavior holds the address of its tester, so two behaviors of one
    tester write to the same record); the cells of the backing arrays
    of slices, by array and index, a cell that was never written holding
    the zero value nil (a slice never reaches past its capacity, which
    ends where its array ends, so the cells past the end of an array are
    never looked at); and the number of arrays allocated so far, the
    next array being given this number. *)
Record Heap : Type := mkHeap {
  testers : gmap nat BehaviorTester.t;
  cells : gmap (nat * nat) (any Dyn);
  next : nat
}.

(** The cell [i] of the array [a]. *)
Definition cell (σ : Heap) (a i : nat) : any Dyn :=
  default any_nil (cells σ !! (a, i)).

(** The elements of a slice, [s[0]] to [s[len(s)-1]]. *)
Definition elems (σ : Heap) (s : slice.t) : list (any Dyn) :=
  match s with
  | slice.null => []
  | slice.mk a off n _ => map (fun i => cell σ a (off + i)) (seq 0 n)
  end.

(** Writes [xs] into the cells of the array [a] from index [i] on. *)
Fixpoint store (a i : nat) (xs : list (any Dyn))
    (m : gmap (nat * nat) (any Dyn)) : gmap (nat * nat) (any Dyn) :=
  match xs with
  | [] => m
  | x :: xs' => <[(a, i) := x]> (store a (S i) xs' m)
  end.

(** [append(s, x)] when [s] has no room left: a new array is allocated,
    of the capacity the runtime picks and at least [len(s) + 1]; it
    holds the elements of [s], then [x], then zero values; the slice
    returned is the first [len(s) + 1] cells of it.  The old array is
    left as it is. *)
Definition grown (s : slice.t) (x : any Dyn) : M Heap slice.t :=
  fun σ =>
    let n := slice.len s in
    let c := Nat.max (S n) (nextCap (slice.cap s)) in
    (Ok (slice.mk (next σ) 0 (S n) c),
     {| testers := testers σ;
        cells := store (next σ) 0
                   (elems σ s ++ [x] ++ repeat any_nil (c - S n)) (cells σ);
        next := S (next σ) |}).

(** The built-in [append(s, x)]: when [len(s) < cap(s)], [x] is written
    into the backing array of [s], in the cell after the last element of
    [s], and the slice returned is [s] extended by that cell; any other
    slice that covers the cell sees the write.  Otherwise see [grown]. *)
Definition append (s : slice.t) (x : any Dyn) : M Heap slice.t :=
  fun σ =>
    match s with
    | slice.mk a off n c =>
        if Nat.ltb n c then
          (Ok (slice.mk a off (S n) c),
           {| testers := testers σ;
              cells := <[(a, off + n) := x]> (cells σ);
              next := next σ |})
        else grown s x σ
    | slice.null => grown s x σ
    end.

(** Reads [*bt]. *)
Definition deref (bt : BehaviorTester_ptr) : M Heap BehaviorTester.t :=
  fun σ =>
    match bt with
    | Some l =>
        match testers σ !! l with
        | Some t => (Ok t, σ)
        | None => (Panic nilDereference, σ)
        end
    | None => (Panic nilDereference, σ)
    end.

(** Writes [*bt = t]. *)
Definition assign (bt : BehaviorTester_ptr) (t : BehaviorTester.t)
    : M Heap unit :=
  fun σ =>
    match bt with
    | Some l =>
        match testers σ !! l with
        | Some _ =>
            (Ok tt,
             {| testers := <[l := t]> (testers σ);
                cells := cells σ;
                next := next σ |})
        | None => (Panic nilDereference, σ)
        end
    | None => (Panic nilDereference, σ)
    end.

(** [func (b basicEntryBuilder) Skip(reason string) interface{}] *)
Definition basicEntryBuilder_Skip (reason : string) : any Dyn :=
  any_BasicEntry (BasicEntry.mk Skipped reason).

(** [func (b basicEntryBuilder) Fail(message string) interface{}] *)
Definition basicEntryBuilder_Fail (message : string) : any Dyn :=
  any_BasicEntry (BasicEntry.mk Failed message).

(** [func (b basicEntryBuilder) Pass(output string) interface{}] *)
Definition basicEntryBuilder_Pass (output : string) : any Dyn :=
  any_BasicEntry (BasicEntry.mk Passed output).

(** [var BasicEntryBuilder EntryBuilder = basicEntryBuilder{}] *)
Definition BasicEntryBuilder : EntryBuilder.t Dyn :=
  Some (EntryBuilder.mk basicEntryBuilder_Skip
                        basicEntryBuilder_Fail
                        basicEntryBuilder_Pass).

(** [func (bt *BehaviorTester) NewBehavior(builder EntryBuilder) Behavior] *)
Definition NewBehavior (bt : BehaviorTester_ptr) (builder : EntryBuilder.t Dyn)
    : M Heap (behavior.t Dyn) :=
  t <- deref bt ;;
  ret (behavior.mk (BehaviorTester.Params t) bt builder).

(** [func (bt *BehaviorTester) putEntry(entry interface{}, status Status)]:
    the [switch] on [status], then
    [bt.Entries = append(bt.Entries, entry)]. *)
Definition putEntry (bt : BehaviorTester_ptr) (entry : any Dyn)
    (status : Status) : M Heap unit :=
  (if String.eqb status Failed then
     t <- deref bt ;;
     assign bt (BehaviorTester.mk (BehaviorTester.Params t) true
                  (BehaviorTester.Skipped t) (BehaviorTester.Entries t))
   else if String.eqb status Skipped then
     t <- deref bt ;;
     assign bt (BehaviorTester.mk (BehaviorTester.Params t)
                  (BehaviorTester.Failed t) true (BehaviorTester.Entries t))
   else
     ret tt) ;;
  t <- deref bt ;;
  s <- append (BehaviorTester.Entries t) entry ;;
  assign bt (BehaviorTester.mk (BehaviorTester.Params t)
               (BehaviorTester.Failed t) (BehaviorTester.Skipped t) s).

(** A method call [b.Builder.m(s)] on the builder interface. *)
Definition Builder_call (b : behavior.t Dyn)
    (m : EntryBuilder.methods Dyn -> string -> any Dyn) (s : string)
    : M Heap (any Dyn) :=
  match behavior.Builder b with
  | Some builder => ret (m builder s)
  | None => panic nilDereference
  end.

(** [func (b behavior) Skip(reason string)] *)
Definition Skip (b : behavior.t Dyn) (reason : string) : M Heap unit :=
  entry <- Builder_call b (@EntryBuilder.Skip Dyn) reason ;;
  putEntry (behavior.Tester b) entry Skipped.

(** [func (b behavior) Fail(message string)] *)
Definition Fail (b : behavior.t Dyn) (message : string) : M Heap unit :=
  entry <- Builder_call b (@EntryBuilder.Fail Dyn) message ;;
  putEntry (behavior.Tester b) entry Failed.

(** [func (b behavior) Pass(output string)] *)
Definition Pass (b : behavior.t Dyn) (output : string) : M Heap unit :=
  entry <- Builder_call b (@EntryBuilder.Pass Dyn) output ;;
  putEntry (behavior.Tester b) entry Passed.

(** [func (b behavior) Skipf(format string, args ...interface{})] *)
Definition Skipf (b : behavior.t Dyn) (format : string)
    (args : list (any Dyn)) : M Heap unit :=
  Skip b (Sprintf format args).

(** [func (b behavior) Failf(format string, args ...interface{})] *)
Definition Failf (b : behavior.t Dyn) (format : string)
    (args : list (any Dyn)) : M Heap unit :=
  Fail b (Sprintf format args).

(** [func (b behavior) Passf(format string, args ...interface{})] *)
Definition Passf (b : behavior.t Dyn) (format : string)
    (args : list (any Dyn)) : M Heap unit :=
  Pass b (Sprintf format args).

(** A call of one of the six reporting methods of [Behavior]. *)
Inductive Call : Type :=
| CSkip (reason : string)
| CFail (message : string)
| CPass (output : string)
| CSkipf (format : string) (args : list (any Dyn))
| CFailf (format : string) (args : list (any Dyn))
| CPassf (format : string) (args : list (any Dyn)).

Definition perform (b : behavior.t Dyn) (c : Call) : M Heap unit :=
  match c with
  | CSkip reason => Skip b reason
  | CFail message => Fail b message
  | CPass output => Pass b output
  | CSkipf format args => Skipf b format args
  | CFailf format args => Failf b format args
  | CPassf format args => Passf b format args
  end.

(** A test body: calls made one after the other, each on some behavior. *)
Fixpoint performAll (cs : list (behavior.t Dyn * Call)) : M Heap unit :=
  match cs with
  | [] => ret tt
  | (b, c) :: cs' => perform b c ;; performAll cs'
  end.

(** The string a call hands to the builder. *)
Definition textOf (c : Call) : string :=
  match c with
  | CSkip s | CFail s | CPass s => s
  | CSkipf format args | CFailf format args | CPassf format args =>
      Sprintf format args
  end.

(** The entry the builder makes for a call. *)
Definition entryOf (builder : EntryBuilder.methods Dyn) (c : Call) : any Dyn :=
  match c with
  | CSkip _ | CSkipf _ _ => EntryBuilder.Skip builder (textOf c)
  | CFail _ | CFailf _ _ => EntryBuilder.Fail builder (textOf c)
  | CPass _ | CPassf _ _ => EntryBuilder.Pass builder (textOf c)
  end.

Definition isSkip (c : Call) : bool :=
  match c with CSkip _ | CSkipf _ _ => true | _ => false end.

Definition isFail (c : Call) : bool :=
  match c with CFail _ | CFailf _ _ => true | _ => false end.

(** [t'] is a later state of the tester [t]: the same parameters and no
    flag reset. *)
Definition grows (t t' : BehaviorTester.t) : Prop :=
  BehaviorTester.Params t' = BehaviorTester.Params t
  /\ (BehaviorTester.Failed t = true -> BehaviorTester.Failed t' = true)
  /\ (BehaviorTester.Skipped t = true -> BehaviorTester.Skipped t' = true).

(** What [append] may do to the arrays, from the heap [σ] and the slice
    [s] to the heap [σ'] and the slice [s'] it returns: either [s'] is
    on the array of [s] and no array was allocated, or [s'] is on a new
    array, the one allocated; and the cells of an array that existed
    before and is not the array of [s] are as they were. *)
Definition touches (σ : Heap) (s : slice.t) (σ' : Heap) (s' : slice.t)
    : Prop :=
  ((slice.array s' = slice.array s /\ next σ' = next σ)
   \/ (slice.array s' = Some (next σ) /\ next σ' = S (next σ)))
  /\
  forall a i,
    slice.array s <> Some a -> a < next σ ->
    cells σ' !! (a, i) = cells σ !! (a, i).

End Behavior.

Arguments Heap : clear implicits.

End client.


(** ** Concrete handlers and interceptors, used to run the embedding *)

Module examples.
Import gort transport probe.
Local Open Scope go_scope.
Local Open Scope string_scope.

(** The state of the code under observation: how many requests the
    terminal handler has served. *)
Definition St : Type := nat.

Definition ExWorld : Type := World St unit nat unit.
Definition ExHandler : Type := @Handler ExWorld unit nat unit string.
Definition ExInterceptor : Type := @Interceptor ExWorld unit nat unit string.

(** A handler that fails the first time it is called and succeeds from
    then on. *)
Definition flaky (_ : unit) (_ : nat) (_ : unit) : M St (option string) :=
  fun served =>
    (Ok (if Nat.eqb served 0 then Some "try again" else None), S served).

(** A handler that panics. *)
Definition broken (_ : unit) (_ : nat) (_ : unit) : M St (option string) :=
  panic (userPanic "broken").

(** Interceptor logic that rejects every request without calling on. *)
Definition deny (_ : unit) (_ : nat) (_ : unit) : M St (option string) :=
  ret (Some "denied").

(** Interceptor logic that answers every request itself, successfully. *)
Definition answer (_ : unit) (_ : nat) (_ : unit) : M St (option string) :=
  ret None.

Definition w0 : ExWorld := {| log := []; user := 0 |}.

Definition H : ExHandler := probedHandler flaky.
Definition outer : ExInterceptor := passThrough 1.
Definition inner : ExInterceptor := passThrough 2.
Definition gate : ExInterceptor := shortCircuit deny.
Definition stub : ExInterceptor := shortCircuit answer.
Definition retry : ExInterceptor := callTwice.

End examples.

Module client_examples.
Import gort client.
Local Open Scope string_scope.

(** A stand-in for [fmt.Sprintf] on formats without verbs. *)
Definition plainSprintf (format : string) (_ : list (any unit)) : string :=
  format.

(** A growth policy: twice the old capacity. *)
Definition twice (c : nat) : nat := 2 * c.

(** A tester that has recorded one skip so far, in an array with no room
    left, alone in the heap at address 0. *)
Definition seen : BehaviorTester.t :=
  BehaviorTester.mk None false true (slice.mk 0 0 1 1).
Definition heap0 : Heap unit :=
  {| testers := {[ 0 := seen ]};
     cells := {[ (0, 0) := basicEntryBuilder_Skip "not ready" ]};
     next := 1 |}.

(** The method set of [BasicEntryBuilder]. *)
Definition basic : EntryBuilder.methods unit :=
  EntryBuilder.mk basicEntryBuilder_Skip
                  basicEntryBuilder_Fail
                  basicEntryBuilder_Pass.

(** The behavior [NewBehavior] makes for the tester at 0, with the basic
    builder and with no builder. *)
Definition b0 : behavior.t unit := behavior.mk None (Some 0) (Some basic).
Definition bnil : behavior.t unit := behavior.mk None (Some 0) None.

End client_examples.


(** ** Chains of interceptors *)

Module chains.
Import gort transport probe.
Local Open Scope go_scope.

Section Chains.

Context {W context_Context Request ResponseWriter Err : Type}.

Local Abbreviation Handler :=
  (@Handler W context_Context Request ResponseWriter Err).
Local Abbreviation Interceptor :=
  (@Interceptor W context_Context Request ResponseWriter Err).

(** [ApplyInterceptor] applied once for every interceptor of a list, the
    last of the list first: the head of the list ends up outermost. *)
Fixpoint applyAll (h : Handler) (chain : list Interceptor) : Handler :=
  match chain with
  | [] => h
  | i :: rest => ApplyInterceptor (applyAll h rest) i
  end.

(** [i != nil] *)
Definition isPresent (i : Interceptor) : bool :=
  match i with Some _ => true | None => false end.

(** [i] is an interceptor (not the nil interface) that changes the
    request with [pre] before it calls its next handler once, and
    changes the returned error with [post] before it returns it. *)
Definition Rewrites (pre : Request -> Request)
    (post : option Err -> option Err) (i : Interceptor) : Prop :=
  i <> None /\
  forall ctx req resw next w,
    Interceptor_Handle i ctx req resw next w
    = (e <- Handler_Handle next ctx (pre req) resw ;; ret (post e)) w.

Definition rewriting (pre : Request -> Request)
    (post : option Err -> option Err) : Interceptor :=
  InterceptorFunc_as_Interceptor
    (Some (fun ctx req resw next =>
             e <- Handler_Handle next ctx (pre req) resw ;; ret (post e))).

End Chains.

Section Logs.

Context {St context_Context Request ResponseWriter : Type}.

(** The world [w] with the events [es] added to its log. *)
Definition extend (w : World St context_Context Request ResponseWriter)
    (es : list (Event context_Context Request ResponseWriter))
    : World St context_Context Request ResponseWriter :=
  {| log := log w ++ es; user := user w |}.

End Logs.

End chains.

Module chain_examples.
Import gort transport probe chains examples.
Local Open Scope string_scope.

(** A handler that serves every request, successfully. *)
Definition steady (_ : unit) (_ : nat) (_ : unit) : M St (option string) :=
  fun served => (Ok None, S served).

(** A handler that rejects the requests above 9. *)
Definition picky (_ : unit) (req : nat) (_ : unit) : M St (option string) :=
  fun served =>
    (Ok (if Nat.leb req 9 then None else Some "too big"), S served).

Definition three : list ExInterceptor :=
  [passThrough 1; passThrough 2; passThrough 3].

(** Doubles the request and hides every error. *)
Definition doubling : ExInterceptor :=
  rewriting (fun req => 2 * req) (fun _ => None).

(** Adds one to the request and marks a success as an error. *)
Definition bumping : ExInterceptor :=
  rewriting (fun req => req + 1)
            (fun e => match e with
                      | None => Some "no error"
                      | Some msg => Some msg
                      end).

End chain_examples.

(** ** More about recorded entries *)

Module records.
Import gort client.
Local Open Scope string_scope.

Section Records.

Context {Dyn : Type}.
Variable Sprintf : string -> list (any Dyn) -> string.

(** The entry is a [BasicEntry] with the given status. *)
Definition entryHas (status : Status) (e : any Dyn) : bool :=
  match e with
  | any_BasicEntry be => String.eqb (BasicEntry.Status be) status
  | _ => false
  end.

(** The flags of a tester say what its entries say: [Failed] is set
    exactly when an entry has the status failed, [Skipped] exactly when
    an entry has the status skipped. *)
Definition consistent (σ : Heap Dyn) (t : BehaviorTester.t) : Prop :=
  BehaviorTester.Failed t
  = existsb (entryHas Failed) (elems σ (BehaviorTester.Entries t))
  /\ BehaviorTester.Skipped t
     = existsb (entryHas Skipped) (elems σ (BehaviorTester.Entries t)).

(** The entries a series of calls hands to [putEntry], in order; a call
    on a behavior without a builder hands over none. *)
Fixpoint entriesOf (cs : list (behavior.t Dyn * @Call Dyn)) : list (any Dyn) :=
  match cs with
  | [] => []
  | (b, c) :: cs' =>
      match behavior.Builder b with
      | Some builder => entryOf Sprintf builder c :: entriesOf cs'
      | None => entriesOf cs'
      end
  end.

(** The call is made on a behavior of the tester at [l] that has a
    builder. *)
Definition reportsTo (l : nat) (bc : behavior.t Dyn * @Call Dyn) : Prop :=
  behavior.Tester (fst bc) = Some l /\ behavior.Builder (fst bc) <> None.

(** No two testers share a backing array: the array of the [Entries] of
    every tester has been allocated, and is the array of the [Entries]
    of no other tester.  This is so when every tester started from the
    zero value (or from a slice of its own) and [Entries] was never
    copied from one tester to another. *)
Definition separated (σ : Heap Dyn) : Prop :=
  (forall l t a,
      testers σ !! l = Some t ->
      slice.array (BehaviorTester.Entries t) = Some a ->
      a < next σ)
  /\
  (forall l1 l2 t1 t2 a,
      testers σ !! l1 = Some t1 ->
      testers σ !! l2 = Some t2 ->
      slice.array (BehaviorTester.Entries t1) = Some a ->
      slice.array (BehaviorTester.Entries t2) = Some a ->
      l1 = l2).

End Records.

End records.

Module record_examples.
Import gort client records client_examples.
Local Open Scope string_scope.

(** A builder that keeps only the text, as a dynamic value. *)
Definition terse : EntryBuilder.methods string :=
  EntryBuilder.mk (fun s => any_dyn s) (fun s => any_dyn s) (fun s => any_dyn s).

(** Two testers with nothing in common: at 0 the zero value, at 1 a
    tester that recorded one pass in an array with room for four. *)
Definition blank : BehaviorTester.t :=
  BehaviorTester.mk None false false slice.null.
Definition passedOnce : BehaviorTester.t :=
  BehaviorTester.mk None false false (slice.mk 0 0 1 4).
Definition heap2 : Heap unit :=
  {| testers := {[ 0 := blank; 1 := passedOnce ]};
     cells := {[ (0, 0) := basicEntryBuilder_Pass "ok" ]};
     next := 1 |}.

(** Two testers whose [Entries] share one array of four cells: the
    tester at 1 holds two entries, the tester at 0 holds the first of
    them only, as after [t0.Entries = t1.Entries[:1]]. *)
Definition shorter : BehaviorTester.t :=
  BehaviorTester.mk None false false (slice.mk 0 0 1 4).
Definition longer : BehaviorTester.t :=
  BehaviorTester.mk None false false (slice.mk 0 0 2 4).
Definition sharing : Heap unit :=
  {| testers := {[ 0 := shorter; 1 := longer ]};
     cells := {[ (0, 0) := basicEntryBuilder_Pass "ok";
                 (0, 1) := basicEntryBuilder_Pass "old" ]};
     next := 1 |}.

(** Two behaviors of the tester at 0 and one of the tester at 1. *)
Definition first : behavior.t unit := behavior.mk None (Some 0) BasicEntryBuilder.
Definition second : behavior.t unit := behavior.mk None (Some 0) (Some basic).
Definition other : behavior.t unit := behavior.mk None (Some 1) BasicEntryBuilder.

Definition series : list (behavior.t unit * @Call unit) :=
  [(first, CPass "a"); (second, CFailf "b" []); (first, CSkip "c")].

Definition mixed : list (behavior.t unit * @Call unit) :=
  [(first, CFail "x"); (other, CSkip "y")].

End record_examples.


(** ** The monad: what sequencing does to a run *)

Module gort_laws.
Import gort.

Section Runs.

Context {W : Type}.

Lemma bind_ok {A B} (m : M W A) (k : A -> M W B) w a w' :
  m w = (Ok a, w') -> bind m k w = k a w'.
Proof. intros Hm. unfold bind. now rewrite Hm. Qed.

Lemma bind_panic {A B} (m : M W A) (k : A -> M W B) w p w' :
  m w = (Panic p, w') -> bind m k w = (Panic p, w').
Proof. intros Hm. unfold bind. now rewrite Hm. Qed.

Lemma bind_ret_r {A} (m : M W A) w : bind m ret w = m w.
Proof. unfold bind, ret. destruct (m w) as [[a | p] w']; reflexivity. Qed.

Lemma bind_ret_l {A B} (a : A) (k : A -> M W B) w : bind (ret a) k w = k a w.
Proof. apply bind_ok. reflexivity. Qed.

End Runs.

End gort_laws.


(** ** Properties of package transport *)

Module transport_spec.
Import gort gort_laws transport probe.
Local Open Scope go_scope.

(** *** Composition, over any world *)

Section Compose.

Context {W context_Context Request ResponseWriter Err : Type}.

Local Abbreviation Handler :=
  (@Handler W context_Context Request ResponseWriter Err).
Local Abbreviation Interceptor :=
  (@Interceptor W context_Context Request ResponseWriter Err).
Local Abbreviation InterceptorFunc :=
  (@InterceptorFunc W context_Context Request ResponseWriter Err).

(** Applying a non-nil interceptor builds an [interceptedHandler]. *)
Lemma ApplyInterceptor_wraps (h : Handler) (i : Interceptor) :
  i <> None ->
  ApplyInterceptor h i
  = interceptedHandler_as_Handler {| transport.h := h; transport.i := i |}.
Proof.
  intros Hi. unfold ApplyInterceptor.
  destruct i as [handle | ]; [reflexivity | contradiction].
Qed.

(** The run of a composed handler is the run of its interceptor on the
    inner handler. *)
Lemma intercepted_run (h : Handler) (i : Interceptor) ctx req resw :
  i <> None ->
  Handler_Handle (ApplyInterceptor h i) ctx req resw
  = Interceptor_Handle i ctx req resw h.
Proof.
  intros Hi. rewrite ApplyInterceptor_wraps by assumption.
  reflexivity.
Qed.

(** Invoking the nil handler panics at once and leaves the world as it
    was. *)
Lemma nil_Handler_panics ctx req resw (w : W) :
  Handler_Handle (None : Handler) ctx req resw w = (Panic nilDereference, w).
Proof. reflexivity. Qed.

(** C1: for a handler [h] and a non-absent interceptor [i],
    [ApplyInterceptor h i] is a handler (not nil) whose
    [Handle ctx req resw] is exactly [i.Handle ctx req resw h]: the
    same result and the same effects, from every world. *)
Theorem ApplyInterceptor_Handle (h : Handler) (i : Interceptor) :
  i <> None ->
  ApplyInterceptor h i <> None /\
  forall ctx req resw,
    Handler_Handle (ApplyInterceptor h i) ctx req resw
    = Interceptor_Handle i ctx req resw h.
Proof.
  intros Hi. split.
  - rewrite ApplyInterceptor_wraps by assumption.
    unfold interceptedHandler_as_Handler. discriminate.
  - intros ctx req resw. now apply intercepted_run.
Qed.

(** C2: [ApplyInterceptor h nil] is [h] itself, the very value it was
    given and no wrapper around it, whatever [h] is (the nil handler
    included); hence it behaves as [h] does on every input. *)
Theorem ApplyInterceptor_nil_identity (h : Handler) :
  ApplyInterceptor h None = h /\
  forall ctx req resw w,
    Handler_Handle (ApplyInterceptor h None) ctx req resw w
    = Handler_Handle h ctx req resw w.
Proof.
  assert (Hid : ApplyInterceptor h None = h) by (unfold ApplyInterceptor; reflexivity).
  split; [exact Hid | ].
  intros ctx req resw w. now rewrite Hid.
Qed.

(** C5: whatever [i.Handle] returns, an error value or nil, is what the
    composed handler returns, and the composed handler returns nothing
    else: composition neither drops, replaces nor alters it. *)
Theorem composed_returns_interceptor_error
    (h : Handler) (i : Interceptor) ctx req resw (w : W) :
  i <> None ->
  forall (e : option Err) (w' : W),
    Handler_Handle (ApplyInterceptor h i) ctx req resw w = (Ok e, w')
    <-> Interceptor_Handle i ctx req resw h w = (Ok e, w').
Proof.
  intros Hi e w'.
  rewrite (intercepted_run h ctx req resw Hi).
  split; intros Hrun; exact Hrun.
Qed.

(** C9: [InterceptorFunc(f).Handle(ctx, req, resw, h)] is the call
    [f(ctx, req, resw, h)], both as a method of the func type and through
    the [Interceptor] interface; so is the handler composed from it. *)
Theorem InterceptorFunc_Handle_is_call (f : InterceptorFunc) ctx req resw
    (h : Handler) :
  InterceptorFunc_Handle f ctx req resw h = InterceptorFunc_call f ctx req resw h
  /\ Interceptor_Handle (InterceptorFunc_as_Interceptor f) ctx req resw h
     = InterceptorFunc_call f ctx req resw h
  /\ Handler_Handle (ApplyInterceptor h (InterceptorFunc_as_Interceptor f))
       ctx req resw
     = InterceptorFunc_call f ctx req resw h.
Proof.
  assert (Hm : InterceptorFunc_Handle f ctx req resw h
               = InterceptorFunc_call f ctx req resw h).
  { destruct f as [body | ]; reflexivity. }
  split; [ | split].
  - exact Hm.
  - unfold InterceptorFunc_as_Interceptor, Interceptor_Handle. exact Hm.
  - rewrite intercepted_run by discriminate.
    unfold InterceptorFunc_as_Interceptor, Interceptor_Handle. exact Hm.
Qed.

End Compose.

(** *** Chains under observation *)

Section Observed.

Context {W St context_Context Request ResponseWriter Err : Type}.

Local Abbreviation World := (World St context_Context Request ResponseWriter).
Local Abbreviation Handler :=
  (@Handler World context_Context Request ResponseWriter Err).
Local Abbreviation Interceptor :=
  (@Interceptor World context_Context Request ResponseWriter Err).
Local Abbreviation Body :=
  (context_Context -> Request -> ResponseWriter -> M St (option Err)).

(** One invocation of the probed handler: one call is logged, with the
    arguments of the invocation, and the body runs on the user state. *)
Lemma probedHandler_run (body : Body) ctx req resw (w : World) :
  Handler_Handle (probedHandler body) ctx req resw w
  = (fst (body ctx req resw (user w)),
     {| log := log w ++ [HCall ctx req resw];
        user := snd (body ctx req resw (user w)) |}).
Proof.
  unfold probedHandler, Handler_Handle, bind, emit, liftUser. simpl.
  destruct (body ctx req resw (user w)) as [r s']. reflexivity.
Qed.

Lemma callsIn_app (l1 l2 : list (Event context_Context Request ResponseWriter)) :
  callsIn (l1 ++ l2) = callsIn l1 ++ callsIn l2.
Proof.
  induction l1 as [ | e l1 IH]; simpl; [reflexivity | ].
  destruct e; simpl; now rewrite IH.
Qed.

(** C3: a handler composed with [NopInterceptor] runs exactly as the
    handler itself, from every world and for every handler (the same
    result, the same effects); and under observation the inner handler is
    seen to be called once, with the arguments of the invocation, its
    result being returned as it is. *)
Theorem NopInterceptor_transparent :
  (forall (h : @transport.Handler W context_Context Request ResponseWriter Err)
          ctx req resw w,
      Handler_Handle (ApplyInterceptor h NopInterceptor) ctx req resw w
      = Handler_Handle h ctx req resw w)
  /\
  (forall (body : Body) ctx req resw (w : World),
      Handler_Handle (ApplyInterceptor (probedHandler body) NopInterceptor)
        ctx req resw w
      = (fst (body ctx req resw (user w)),
         {| log := log w ++ [HCall ctx req resw];
            user := snd (body ctx req resw (user w)) |})).
Proof.
  assert (Hnop : forall V (h : @transport.Handler V context_Context Request
                                  ResponseWriter Err) ctx req resw,
             Handler_Handle (ApplyInterceptor h NopInterceptor) ctx req resw
             = Handler_Handle h ctx req resw).
  { intros V h ctx req resw.
    rewrite intercepted_run by (unfold NopInterceptor; discriminate).
    unfold NopInterceptor, Interceptor_Handle, nopInterceptor_Handle.
    reflexivity. }
  split.
  - intros h ctx req resw w. now rewrite Hnop.
  - intros body ctx req resw w. rewrite Hnop. apply probedHandler_run.
Qed.

(** C4: with [I1] composed outermost and [I2] innermost around [H], a
    pass-through invocation adds to the log, in this order, the entry of
    [I1], the entry of [I2], the call of [H], the exit of [I2] and the
    exit of [I1], and returns what [H] returned. *)
Theorem chain_runs_outermost_first
    (body : Body) (id1 id2 : nat) (I1 I2 : Interceptor)
    ctx req resw (w : World) (e : option Err) (s' : St) :
  PassThrough id1 I1 ->
  PassThrough id2 I2 ->
  body ctx req resw (user w) = (Ok e, s') ->
  Handler_Handle
    (ApplyInterceptor (ApplyInterceptor (probedHandler body) I2) I1)
    ctx req resw w
  = (Ok e,
     {| log := log w ++ [IEnter id1; IEnter id2; HCall ctx req resw;
                         IExit id2; IExit id1];
        user := s' |}).
Proof.
  intros [Hn1 H1] [Hn2 H2] Hbody.
  rewrite intercepted_run by assumption. rewrite H1.
  unfold bind at 1. unfold emit at 1. cbn [log user].
  erewrite bind_ok; cycle 1.
  { rewrite intercepted_run by assumption. rewrite H2.
    unfold bind at 1. unfold emit at 1. cbn [log user].
    erewrite bind_ok; cycle 1.
    { rewrite probedHandler_run. cbn [log user]. rewrite Hbody. reflexivity. }
    unfold bind, emit, ret. cbn [log user fst snd]. reflexivity. }
  unfold bind, emit, ret. cbn [log user].
  repeat rewrite <- app_assoc. reflexivity.
Qed.

(** C6: an interceptor that never invokes its next handler, composed
    around [H]: an invocation returns what the interceptor made up, the
    log is left as it was, and so the call counter of [H] does not move
    (from zero it stays zero). *)
Theorem short_circuit_skips_handler
    (body synth : Body) (I : Interceptor) ctx req resw (w : World) :
  NeverCallsNext I synth ->
  Handler_Handle (ApplyInterceptor (probedHandler body) I) ctx req resw w
  = (fst (synth ctx req resw (user w)),
     {| log := log w; user := snd (synth ctx req resw (user w)) |})
  /\ callCount
       (snd (Handler_Handle (ApplyInterceptor (probedHandler body) I)
               ctx req resw w))
     = callCount w
  /\ (callCount w = 0 ->
      callCount
        (snd (Handler_Handle (ApplyInterceptor (probedHandler body) I)
                ctx req resw w))
      = 0).
Proof.
  intros [Hn Hskip].
  assert (Hrun :
    Handler_Handle (ApplyInterceptor (probedHandler body) I) ctx req resw w
    = (fst (synth ctx req resw (user w)),
       {| log := log w; user := snd (synth ctx req resw (user w)) |})).
  { rewrite intercepted_run by assumption. rewrite Hskip.
    unfold liftUser. destruct (synth ctx req resw (user w)) as [r s'].
    reflexivity. }
  rewrite Hrun. unfold callCount. cbn [snd log].
  split; [reflexivity | split; [reflexivity | intros Hz; exact Hz]].
Qed.

(** C7: an interceptor that calls its next handler twice with the
    arguments it was given and returns the last result, composed around
    [H]: when the first call returns, [H] is invoked exactly twice, both
    times with the request of the invocation, and the composed handler
    returns what the second call returned. *)
Theorem call_twice_invokes_handler_twice
    (body : Body) (I : Interceptor) ctx req resw (w : World)
    (e1 : option Err) (s1 : St) :
  CallsNextTwice I ->
  body ctx req resw (user w) = (Ok e1, s1) ->
  Handler_Handle (ApplyInterceptor (probedHandler body) I) ctx req resw w
  = (fst (body ctx req resw s1),
     {| log := log w ++ [HCall ctx req resw; HCall ctx req resw];
        user := snd (body ctx req resw s1) |})
  /\ callsIn
       (log (snd (Handler_Handle (ApplyInterceptor (probedHandler body) I)
                    ctx req resw w)))
     = callsIn (log w) ++ [(ctx, req, resw); (ctx, req, resw)].
Proof.
  intros [Hn Htwice] Hfirst.
  assert (Hrun :
    Handler_Handle (ApplyInterceptor (probedHandler body) I) ctx req resw w
    = (fst (body ctx req resw s1),
       {| log := log w ++ [HCall ctx req resw; HCall ctx req resw];
          user := snd (body ctx req resw s1) |})).
  { rewrite intercepted_run by assumption. rewrite Htwice.
    erewrite bind_ok; cycle 1.
    { rewrite probedHandler_run. rewrite Hfirst. reflexivity. }
    rewrite probedHandler_run. cbn [log user].
    rewrite <- app_assoc. reflexivity. }
  split; [exact Hrun | ].
  rewrite Hrun. cbn [snd log]. rewrite callsIn_app. reflexivity.
Qed.

(** The interceptors of module [probe] are of the kinds they are named
    after. *)
Lemma passThrough_PassThrough (id : nat) :
  PassThrough id (passThrough id : Interceptor).
Proof.
  split; [unfold passThrough, InterceptorFunc_as_Interceptor; discriminate | ].
  intros ctx req resw next w. reflexivity.
Qed.

Lemma shortCircuit_NeverCallsNext (synth : Body) :
  NeverCallsNext (shortCircuit synth : Interceptor) synth.
Proof.
  split; [unfold shortCircuit, InterceptorFunc_as_Interceptor; discriminate | ].
  intros ctx req resw next w. reflexivity.
Qed.

Lemma callTwice_CallsNextTwice : CallsNextTwice (callTwice : Interceptor).
Proof.
  split; [unfold callTwice, InterceptorFunc_as_Interceptor; discriminate | ].
  intros ctx req resw next w. reflexivity.
Qed.

(** C8, as the code has it: a nil handler is never refused when it is
    composed.  With no interceptor the composition is the nil handler,
    and invoking it panics at once; with an interceptor the invocation is
    the interceptor's run on the nil handler, which panics with a nil
    dereference where the interceptor calls its next handler (at once
    and with no effect for [NopInterceptor], after its own entry was
    logged for a pass-through probe) and which completes as the
    interceptor decides when the interceptor never calls it. *)
Theorem nil_handler_fails_where_called :
  (forall ctx req resw (w : World),
      Handler_Handle (ApplyInterceptor (None : Handler) None) ctx req resw w
      = (Panic nilDereference, w))
  /\
  (forall handle ctx req resw,
      Handler_Handle (ApplyInterceptor (None : Handler) (Some handle))
        ctx req resw
      = handle ctx req resw None)
  /\
  (forall ctx req resw (w : World),
      Handler_Handle (ApplyInterceptor (None : Handler) NopInterceptor)
        ctx req resw w
      = (Panic nilDereference, w))
  /\
  (forall id ctx req resw (w : World),
      Handler_Handle (ApplyInterceptor (None : Handler) (passThrough id))
        ctx req resw w
      = (Panic nilDereference,
         {| log := log w ++ [IEnter id]; user := user w |}))
  /\
  (forall (synth : Body) ctx req resw (w : World),
      Handler_Handle (ApplyInterceptor (None : Handler) (shortCircuit synth))
        ctx req resw w
      = liftUser (synth ctx req resw) w).
Proof.
  split; [ | split; [ | split; [ | split]]].
  - intros ctx req resw w. unfold ApplyInterceptor. apply nil_Handler_panics.
  - intros handle ctx req resw.
    now rewrite intercepted_run by discriminate.
  - intros ctx req resw w.
    rewrite intercepted_run by (unfold NopInterceptor; discriminate).
    unfold NopInterceptor, Interceptor_Handle, nopInterceptor_Handle.
    apply nil_Handler_panics.
  - intros id ctx req resw w.
    destruct (passThrough_PassThrough id) as [Hn Hrun].
    rewrite intercepted_run by assumption. rewrite Hrun.
    unfold bind at 1. unfold emit at 1.
    erewrite bind_panic by apply nil_Handler_panics. reflexivity.
  - intros synth ctx req resw w.
    destruct (shortCircuit_NeverCallsNext synth) as [Hn Hrun].
    rewrite intercepted_run by assumption. apply Hrun.
Qed.

End Observed.

(** *** Runs on concrete handlers *)

Import examples.
Local Open Scope string_scope.

(** A handler that panics under a pass-through chain: the entries and
    the call are logged, the exits are not. *)
Example broken_handler_leaves_no_exit :
  Handler_Handle
    (ApplyInterceptor (ApplyInterceptor (probedHandler broken) inner) outer)
    tt 7 tt w0
  = (Panic (userPanic "broken"),
     {| log := [IEnter 1; IEnter 2; HCall tt 7 tt]; user := 0 |}).
Proof. vm_compute. reflexivity. Qed.

(** A nil func converted to [InterceptorFunc] is an interceptor, not the
    nil interface: it is composed, and the composed handler panics when
    it is invoked. *)
Example nil_func_is_composed :
  ApplyInterceptor H (InterceptorFunc_as_Interceptor None) <> H /\
  Handler_Handle (ApplyInterceptor H (InterceptorFunc_as_Interceptor None))
    tt 7 tt w0
  = (Panic nilDereference, w0).
Proof.
  split; [ | reflexivity].
  intros Heq.
  apply (f_equal (fun h => fst (Handler_Handle h tt 7 tt w0))) in Heq.
  vm_compute in Heq. discriminate Heq.
Qed.

(** The retrying interceptor around the flaky handler, inside the two
    probes. *)
Example retry_inside_probes :
  Handler_Handle
    (ApplyInterceptor (ApplyInterceptor (ApplyInterceptor H retry) inner) outer)
    tt 7 tt w0
  = (Ok None,
     {| log := [IEnter 1; IEnter 2; HCall tt 7 tt; HCall tt 7 tt;
                IExit 2; IExit 1];
        user := 2 |}).
Proof. vm_compute. reflexivity. Qed.

Lemma ApplyInterceptor_Handle_witness :
  outer <> None /\
  ApplyInterceptor H outer <> None /\
  forall ctx req resw,
    Handler_Handle (ApplyInterceptor H outer) ctx req resw
    = Interceptor_Handle outer ctx req resw H.
Proof.
  split; [unfold outer, passThrough, InterceptorFunc_as_Interceptor; discriminate | ].
  apply (@ApplyInterceptor_Handle ExWorld unit nat unit string H outer).
  unfold outer, passThrough, InterceptorFunc_as_Interceptor. discriminate.
Defined.

Lemma composed_returns_interceptor_error_witness :
  gate <> None /\
  (Handler_Handle (ApplyInterceptor H gate) tt 7 tt w0 = (Ok (Some "denied"), w0)
   <-> Interceptor_Handle gate tt 7 tt H w0 = (Ok (Some "denied"), w0)).
Proof.
  split; [unfold gate, shortCircuit, InterceptorFunc_as_Interceptor; discriminate | ].
  apply (@composed_returns_interceptor_error ExWorld unit nat unit string
           H gate tt 7 tt w0).
  unfold gate, shortCircuit, InterceptorFunc_as_Interceptor. discriminate.
Defined.

Lemma chain_runs_outermost_first_witness :
  PassThrough 1 outer /\
  PassThrough 2 inner /\
  flaky tt 7 tt (user w0) = (Ok (Some "try again"), 1) /\
  Handler_Handle (ApplyInterceptor (ApplyInterceptor H inner) outer) tt 7 tt w0
  = (Ok (Some "try again"),
     {| log := [IEnter 1; IEnter 2; HCall tt 7 tt; IExit 2; IExit 1];
        user := 1 |}).
Proof.
  split; [apply passThrough_PassThrough | ].
  split; [apply passThrough_PassThrough | ].
  split; [reflexivity | ].
  apply (@chain_runs_outermost_first St unit nat unit string
           flaky 1 2 outer inner tt 7 tt w0 (Some "try again") 1).
  - apply passThrough_PassThrough.
  - apply passThrough_PassThrough.
  - reflexivity.
Defined.

Lemma short_circuit_skips_handler_witness :
  NeverCallsNext gate deny /\
  Handler_Handle (ApplyInterceptor H gate) tt 7 tt w0
  = (Ok (Some "denied"), w0) /\
  callCount (snd (Handler_Handle (ApplyInterceptor H gate) tt 7 tt w0)) = 0.
Proof.
  split; [apply shortCircuit_NeverCallsNext | ].
  destruct (@short_circuit_skips_handler St unit nat unit string
              flaky deny gate tt 7 tt w0
              (shortCircuit_NeverCallsNext deny)) as [Hrun [Hsame Hzero]].
  split; [exact Hrun | apply Hzero; reflexivity].
Defined.

Lemma call_twice_invokes_handler_twice_witness :
  CallsNextTwice retry /\
  flaky tt 7 tt (user w0) = (Ok (Some "try again"), 1) /\
  Handler_Handle (ApplyInterceptor H retry) tt 7 tt w0
  = (Ok None, {| log := [HCall tt 7 tt; HCall tt 7 tt]; user := 2 |}) /\
  callsIn (log (snd (Handler_Handle (ApplyInterceptor H retry) tt 7 tt w0)))
  = [(tt, 7, tt); (tt, 7, tt)].
Proof.
  split; [apply callTwice_CallsNextTwice | ].
  split; [reflexivity | ].
  apply (@call_twice_invokes_handler_twice St unit nat unit string
           flaky retry tt 7 tt w0 (Some "try again") 1).
  - apply callTwice_CallsNextTwice.
  - reflexivity.
Defined.

(** C8 as the specification words it fails on the code: a nil handler
    composed with an interceptor that answers every request itself is
    accepted, and its invocation returns nil and changes nothing. *)
Lemma nil_handler_completes_silently :
  ApplyInterceptor (None : ExHandler) stub <> None /\
  Handler_Handle (ApplyInterceptor (None : ExHandler) stub) tt 7 tt w0
  = (Ok None, w0) /\
  ~ FailsFastOnNilHandler stub.
Proof.
  split; [unfold stub, shortCircuit, InterceptorFunc_as_Interceptor; discriminate | ].
  split; [reflexivity | ].
  intros Hfast. specialize (Hfast tt 7 tt w0). discriminate Hfast.
Defined.

End transport_spec.


(** ** Properties of package client *)

Module client_spec.
Import gort gort_laws client.
Local Open Scope go_scope.
Local Open Scope string_scope.

Section Recorder.

Context {Dyn : Type}.
Variable Sprintf : string -> list (any Dyn) -> string.
Variable nextCap : nat -> nat.

Local Abbreviation Heap := (Heap Dyn).
Local Abbreviation Tester := BehaviorTester.t.
Local Abbreviation Cells := (gmap (nat * nat) (any Dyn)).

(** *** Arrays and slices *)

Lemma store_lookup_outside (a k : nat) (xs : list (any Dyn)) (m : Cells)
    (a' j : nat) :
  a' <> a \/ j < k \/ k + length xs <= j ->
  store a k xs m !! (a', j) = m !! (a', j).
Proof.
  revert k. induction xs as [ | x xs IH]; intros k Hout; [reflexivity | ].
  cbn [store length] in *.
  rewrite lookup_insert_ne by (intros [= -> ->]; lia).
  apply IH. lia.
Qed.

Lemma store_read (a : nat) (xs : list (any Dyn)) :
  forall (k : nat) (m : Cells),
    map (fun i => default any_nil (store a k xs m !! (a, i)))
        (seq k (length xs))
    = xs.
Proof.
  induction xs as [ | x xs IH]; intros k m; [reflexivity | ].
  cbn [store length seq map]. rewrite lookup_insert_eq. cbn [default].
  f_equal. rewrite <- (IH (S k) m) at 2.
  apply map_ext_in. intros i Hi. apply in_seq in Hi.
  rewrite lookup_insert_ne by (intros [= ->]; lia). reflexivity.
Qed.

Lemma elems_length (σ : Heap) (s : slice.t) :
  length (elems σ s) = slice.len s.
Proof.
  destruct s as [ | a off n c]; [reflexivity | ].
  cbn [elems slice.len]. now rewrite length_map, length_seq.
Qed.

(** The elements of a slice depend on the cells only. *)
Lemma elems_cells (σ σ' : Heap) (s : slice.t) :
  cells σ = cells σ' -> elems σ s = elems σ' s.
Proof.
  intros Hc. destruct s as [ | a off n c]; [reflexivity | ].
  cbn [elems]. unfold cell. now rewrite Hc.
Qed.

(** [append] when the array is outgrown: the new slice holds the old
    elements and the new one. *)
Lemma grown_run (s : slice.t) (x : any Dyn) (σ : Heap) :
  exists s' σ',
    grown nextCap s x σ = (Ok s', σ')
    /\ testers σ' = testers σ
    /\ elems σ' s' = (elems σ s ++ [x])%list
    /\ touches σ s σ' s'.
Proof.
  unfold grown. eexists _, _. split; [reflexivity | ].
  split; [reflexivity | ].
  split; cycle 1.
  { split; [right; split; reflexivity | ].
    intros a i _ Ha. cbn [cells].
    apply store_lookup_outside. left. lia. }
  set (c := Nat.max (S (slice.len s)) (nextCap (slice.cap s))).
  set (zeros := repeat any_nil (c - S (slice.len s))).
  cbn [elems cells]. unfold cell. cbn [cells Nat.add].
  pose proof (store_read (next σ) (elems σ s ++ [x] ++ zeros) 0 (cells σ))
    as Hread.
  rewrite app_assoc, length_app, seq_app, map_app in Hread.
  apply app_inj_1 in Hread as [Hread _].
  - rewrite length_app, elems_length in Hread. cbn [length] in Hread.
    replace (slice.len s + 1) with (S (slice.len s)) in Hread by lia.
    rewrite app_assoc. exact Hread.
  - now rewrite length_map, length_seq.
Qed.

(** [append] always returns, changes no tester, and the slice it returns
    holds the elements of its argument followed by the new element. *)
Lemma append_run (s : slice.t) (x : any Dyn) (σ : Heap) :
  exists s' σ',
    append nextCap s x σ = (Ok s', σ')
    /\ testers σ' = testers σ
    /\ elems σ' s' = (elems σ s ++ [x])%list
    /\ touches σ s σ' s'.
Proof.
  destruct s as [ | a off n c]; [apply grown_run | ].
  unfold append. destruct (Nat.ltb n c); [ | apply grown_run].
  eexists _, _. split; [reflexivity | ]. split; [reflexivity | ].
  split.
  - cbn [elems]. rewrite seq_S, map_app. cbn [map Nat.add]. f_equal.
    + apply map_ext_in. intros i Hi. apply in_seq in Hi.
      unfold cell. cbn [cells].
      rewrite lookup_insert_ne by (intros [=]; lia). reflexivity.
    + unfold cell. cbn [cells]. now rewrite lookup_insert_eq.
  - split; [left; split; reflexivity | ].
    intros a' i Ha' _. cbn [cells slice.array] in *.
    apply lookup_insert_ne. intros [= -> _]. now apply Ha'.
Qed.

(** [append] to a slice with room left writes one cell of its array and
    does nothing else. *)
Lemma append_in_place (a off n c : nat) (x : any Dyn) (σ : Heap) :
  n < c ->
  append nextCap (slice.mk a off n c) x σ
  = (Ok (slice.mk a off (S n) c),
     {| testers := testers σ;
        cells := <[(a, off + n) := x]> (cells σ);
        next := next σ |}).
Proof.
  intros Hroom. unfold append.
  destruct (Nat.ltb_spec n c) as [_ | Hfull]; [reflexivity | lia].
Qed.

(** [append] looks at the cells and at the number of arrays only. *)
Lemma append_testers (s : slice.t) (x : any Dyn) (σ : Heap)
    (m : gmap nat Tester) :
  append nextCap s x {| testers := m; cells := cells σ; next := next σ |}
  = (fst (append nextCap s x σ),
     {| testers := m;
        cells := cells (snd (append nextCap s x σ));
        next := next (snd (append nextCap s x σ)) |}).
Proof.
  destruct s as [ | a off n c]; unfold append, grown;
    [reflexivity | destruct (Nat.ltb n c); reflexivity].
Qed.

(** *** Reading and writing through a tester pointer *)

Lemma deref_run (σ : Heap) (l : nat) (t : Tester) :
  testers σ !! l = Some t -> deref (Some l) σ = (Ok t, σ).
Proof. intros Hl. unfold deref. now rewrite Hl. Qed.

Lemma assign_run (σ : Heap) (l : nat) (t t' : Tester) :
  testers σ !! l = Some t ->
  assign (Some l) t' σ
  = (Ok tt, {| testers := <[l := t']> (testers σ);
               cells := cells σ; next := next σ |}).
Proof. intros Hl. unfold assign. now rewrite Hl. Qed.

(** One field write [bt.f = v]: a read of the record and a write back. *)
Lemma update_run (σ : Heap) (l : nat) (t : Tester) (f : Tester -> Tester) :
  testers σ !! l = Some t ->
  (t0 <- deref (Some l) ;; assign (Some l) (f t0)) σ
  = (Ok tt, {| testers := <[l := f t]> (testers σ);
               cells := cells σ; next := next σ |}).
Proof.
  intros Hl. unfold bind. erewrite deref_run by eassumption.
  eapply assign_run; eassumption.
Qed.

(** [putEntry] on an allocated tester is the [append] of the entry to
    its [Entries], in the heap it was called in, and the write of the
    tester with its flag set and the slice that [append] returned. *)
Lemma putEntry_via_append (σ : Heap) (l : nat) (t : Tester) entry
    (status : Status) :
  testers σ !! l = Some t ->
  putEntry nextCap (Some l) entry status σ
  = (Ok tt,
     {| testers :=
          <[l := BehaviorTester.mk
                   (BehaviorTester.Params t)
                   (BehaviorTester.Failed t || String.eqb status Failed)
                   (BehaviorTester.Skipped t
                    || (negb (String.eqb status Failed)
                        && String.eqb status Skipped))
                   match fst (append nextCap (BehaviorTester.Entries t) entry σ)
                   with Ok s' => s' | Panic _ => slice.null end]>
            (testers σ);
        cells := cells (snd (append nextCap (BehaviorTester.Entries t) entry σ));
        next := next (snd (append nextCap (BehaviorTester.Entries t) entry σ))
     |}).
Proof.
  intros Hl.
  destruct (append_run (BehaviorTester.Entries t) entry σ)
    as (s' & σ2 & Happ & _).
  assert (Hlast : forall (t1 : Tester) (σ1 : Heap),
    testers σ1 !! l = Some t1 ->
    cells σ1 = cells σ -> next σ1 = next σ ->
    BehaviorTester.Entries t1 = BehaviorTester.Entries t ->
    (t0 <- deref (Some l) ;;
     s <- append nextCap (BehaviorTester.Entries t0) entry ;;
     assign (Some l)
       (BehaviorTester.mk (BehaviorTester.Params t0) (BehaviorTester.Failed t0)
          (BehaviorTester.Skipped t0) s)) σ1
    = (Ok tt,
       {| testers := <[l := BehaviorTester.mk (BehaviorTester.Params t1)
                             (BehaviorTester.Failed t1)
                             (BehaviorTester.Skipped t1) s']> (testers σ1);
          cells := cells σ2; next := next σ2 |})).
  { intros t1 [m1 c1 n1] Hl1 Hc Hn He. cbn [cells next testers] in *. subst c1 n1.
    erewrite bind_ok by (eapply deref_run; eassumption).
    rewrite He. unfold bind at 1. rewrite append_testers, Happ. cbn [fst snd].
    unfold assign. cbn [testers cells next]. now rewrite Hl1. }
  rewrite Happ. cbn [fst snd]. unfold putEntry.
  destruct (String.eqb status Failed); [ | destruct (String.eqb status Skipped)].
  - erewrite bind_ok by (eapply update_run; eassumption).
    rewrite Hlast with (t1 := BehaviorTester.mk (BehaviorTester.Params t) true
                                (BehaviorTester.Skipped t)
                                (BehaviorTester.Entries t));
      [ | apply lookup_insert_eq | reflexivity | reflexivity | reflexivity].
    cbn. now rewrite insert_insert_eq, orb_true_r, orb_false_r.
  - erewrite bind_ok by (eapply update_run; eassumption).
    rewrite Hlast with (t1 := BehaviorTester.mk (BehaviorTester.Params t)
                                (BehaviorTester.Failed t) true
                                (BehaviorTester.Entries t));
      [ | apply lookup_insert_eq | reflexivity | reflexivity | reflexivity].
    cbn. now rewrite insert_insert_eq, orb_true_r, orb_false_r.
  - rewrite bind_ret_l.
    rewrite Hlast with (t1 := t);
      [ | assumption | reflexivity | reflexivity | reflexivity].
    now rewrite !orb_false_r.
Qed.

(** *** putEntry *)

Lemma putEntry_run (σ : Heap) (l : nat) (t : Tester) entry (status : Status) :
  testers σ !! l = Some t ->
  exists σ' s',
    putEntry nextCap (Some l) entry status σ = (Ok tt, σ')
    /\ testers σ'
       = <[l := BehaviorTester.mk
                 (BehaviorTester.Params t)
                 (BehaviorTester.Failed t || String.eqb status Failed)
                 (BehaviorTester.Skipped t
                  || (negb (String.eqb status Failed)
                      && String.eqb status Skipped))
                 s']> (testers σ)
    /\ elems σ' s' = (elems σ (BehaviorTester.Entries t) ++ [entry])%list
    /\ touches σ (BehaviorTester.Entries t) σ' s'.
Proof.
  intros Hl. rewrite (@putEntry_via_append σ l t entry status Hl).
  destruct (append_run (BehaviorTester.Entries t) entry σ)
    as (s' & σ2 & Happ & _ & Helems & Htouch).
  rewrite Happ. cbn [fst snd]. eexists _, s'.
  split; [reflexivity | ]. split; [reflexivity | ].
  split; [rewrite <- Helems; now apply elems_cells | exact Htouch].
Qed.

(** [putEntry] through a pointer to nothing panics at its first access
    and changes nothing, whatever the status. *)
Lemma putEntry_nowhere (bt : BehaviorTester_ptr) entry (status : Status)
    (σ : Heap) :
  (forall l, bt = Some l -> testers σ !! l = None) ->
  putEntry nextCap bt entry status σ = (Panic nilDereference, σ).
Proof.
  intros Hbt.
  assert (Hderef : forall A (k : Tester -> M Heap A),
             bind (deref bt) k σ = (Panic nilDereference, σ)).
  { intros A k. apply bind_panic. unfold deref.
    destruct bt as [l | ]; [ | reflexivity].
    now rewrite (Hbt l eq_refl). }
  unfold putEntry.
  destruct (String.eqb status Failed);
    [ | destruct (String.eqb status Skipped)].
  - apply bind_panic. apply Hderef.
  - apply bind_panic. apply Hderef.
  - rewrite bind_ret_l. apply Hderef.
Qed.

Lemma grows_refl (t : Tester) : grows t t.
Proof. repeat split; intros Hset; exact Hset. Qed.

Lemma grows_trans (t1 t2 t3 : Tester) : grows t1 t2 -> grows t2 t3 -> grows t1 t3.
Proof.
  intros (Hp & Hf & Hs) (Hp' & Hf' & Hs').
  split; [congruence | ]. split; auto.
Qed.

(** [putEntry] through any pointer, valid or nil, and for any status
    string: every allocated tester stays allocated, keeps its parameters
    and has none of its flags reset. *)
Lemma putEntry_grows (bt : BehaviorTester_ptr) entry (status : Status)
    (σ : Heap) (l : nat) (t : Tester) :
  testers σ !! l = Some t ->
  exists t',
    testers (snd (putEntry nextCap bt entry status σ)) !! l = Some t'
    /\ grows t t'.
Proof.
  intros Hl.
  assert (Hstay : exists t', testers σ !! l = Some t' /\ grows t t')
    by (exists t; split; [assumption | apply grows_refl]).
  destruct bt as [l' | ].
  - destruct (testers σ !! l') as [t1 | ] eqn:Hl'.
    + destruct (@putEntry_run σ l' t1 entry status Hl')
        as (σ' & s' & Hrun & Htesters & _).
      rewrite Hrun. cbn [snd]. rewrite Htesters.
      destruct (decide (l' = l)) as [-> | Hne].
      * rewrite lookup_insert_eq. eexists. split; [reflexivity | ].
        assert (t1 = t) as -> by congruence.
        repeat split; cbn.
        -- intros ->. reflexivity.
        -- intros ->. reflexivity.
      * rewrite lookup_insert_ne by assumption. exact Hstay.
    + rewrite putEntry_nowhere by (intros l0 [= <-]; exact Hl').
      exact Hstay.
  - rewrite putEntry_nowhere by (intros l0 [=]). exact Hstay.
Qed.

(** *** The six reporting methods *)

(** What a call does, case by case: without a builder it panics on the
    builder, and with one it is [putEntry] of the entry the builder
    makes, with the status of the method. *)
Lemma perform_putEntry (b : behavior.t Dyn) (c : Call) (σ : Heap) :
  perform Sprintf nextCap b c σ
  = match behavior.Builder b with
    | Some builder =>
        putEntry nextCap (behavior.Tester b) (entryOf Sprintf builder c)
          (if isFail c then Failed else if isSkip c then Skipped else Passed) σ
    | None => (Panic nilDereference, σ)
    end.
Proof.
  destruct b as [params bt [builder | ]]; cbn [behavior.Builder behavior.Tester];
    destruct c; cbn [perform];
    unfold Skipf, Failf, Passf, Skip, Fail, Pass, Builder_call;
    cbn [behavior.Builder behavior.Tester];
    first [ now rewrite bind_ret_l | now apply bind_panic ].
Qed.

(** A call on a behavior with a builder, whose tester is allocated. *)
Lemma perform_run (σ : Heap) (l : nat) (t : Tester) (params : Params)
    (builder : EntryBuilder.methods Dyn) (c : Call) :
  testers σ !! l = Some t ->
  exists σ' s',
    perform Sprintf nextCap (behavior.mk params (Some l) (Some builder)) c σ
    = (Ok tt, σ')
    /\ testers σ'
       = <[l := BehaviorTester.mk
                 (BehaviorTester.Params t)
                 (BehaviorTester.Failed t || isFail c)
                 (BehaviorTester.Skipped t || isSkip c)
                 s']> (testers σ)
    /\ elems σ' s'
       = (elems σ (BehaviorTester.Entries t) ++ [entryOf Sprintf builder c])%list
    /\ touches σ (BehaviorTester.Entries t) σ' s'.
Proof.
  intros Hl. rewrite perform_putEntry. cbn [behavior.Builder behavior.Tester].
  destruct (@putEntry_run σ l t (entryOf Sprintf builder c)
              (if isFail c then Failed else if isSkip c then Skipped else Passed)
              Hl) as (σ' & s' & Hrun & Htesters & Helems & Htouch).
  exists σ', s'. split; [exact Hrun | split; [ | split; assumption]].
  rewrite Htesters. destruct c; reflexivity.
Qed.

(** A call on any behavior at all: its tester pointer may be nil and its
    builder may be missing. *)
Lemma perform_grows (b : behavior.t Dyn) (c : Call) (σ : Heap) (l : nat)
    (t : Tester) :
  testers σ !! l = Some t ->
  exists t',
    testers (snd (perform Sprintf nextCap b c σ)) !! l = Some t' /\ grows t t'.
Proof.
  intros Hl. rewrite perform_putEntry.
  destruct (behavior.Builder b) as [builder | ].
  - now apply putEntry_grows.
  - exists t. split; [assumption | apply grows_refl].
Qed.

Lemma performAll_grows (cs : list (behavior.t Dyn * Call)) :
  forall (σ : Heap) (l : nat) (t : Tester),
    testers σ !! l = Some t ->
    exists t',
      testers (snd (performAll Sprintf nextCap cs σ)) !! l = Some t'
      /\ grows t t'.
Proof.
  induction cs as [ | [b c] cs IH]; intros σ l t Hl.
  - cbn. exists t. split; [assumption | apply grows_refl].
  - cbn [performAll]. unfold bind.
    destruct (@perform_grows b c σ l t Hl) as (t1 & Hl1 & Hg1).
    destruct (perform Sprintf nextCap b c σ) as [[[] | p] σ1]; cbn [snd] in *.
    + destruct (IH σ1 l t1 Hl1) as (t2 & Hl2 & Hg2).
      exists t2. split; [assumption | eapply grows_trans; eassumption].
    + exists t1. split; assumption.
Qed.

(** What [NewBehavior] returns when it returns. *)
Lemma NewBehavior_inv (bt : BehaviorTester_ptr) (builder : EntryBuilder.t Dyn)
    (σ σ' : Heap) (b : behavior.t Dyn) :
  NewBehavior bt builder σ = (Ok b, σ') ->
  exists l t, bt = Some l /\ testers σ !! l = Some t /\ σ' = σ
              /\ b = behavior.mk (BehaviorTester.Params t) (Some l) builder.
Proof.
  unfold NewBehavior, bind, deref, ret.
  destruct bt as [l | ]; [ | discriminate].
  destruct (testers σ !! l) as [t | ] eqn:Hl; [ | discriminate].
  intros Hnew. injection Hnew as <- <-. exists l, t. auto.
Qed.

(** C10, as the code has it: on a behavior that [NewBehavior] made for
    the tester at [l] with a builder (not the nil [EntryBuilder]), each
    of [Skip], [Fail], [Pass], [Skipf], [Failf] and [Passf] returns and
    appends exactly one entry to the tester's [Entries], the one the
    builder makes from the string given (the formatted string for the
    [f] variants): the elements of [Entries] afterwards are those from
    before followed by that entry.  [Fail] and [Failf] set [Failed],
    [Skip] and [Skipf] set [Skipped], [Pass] and [Passf] leave both
    flags as they were; the parameters stay, and no other tester record
    is touched.  And over any series of such calls, on any behaviors, a
    flag that is set stays set. *)
Theorem reporting_call_records
    (σ0 σ0' σ : Heap) (l : nat) (t : Tester)
    (builder : EntryBuilder.methods Dyn) (b : behavior.t Dyn) (c : Call) :
  NewBehavior (Some l) (Some builder) σ0 = (Ok b, σ0') ->
  testers σ !! l = Some t ->
  (exists (σ' : Heap) (t' : Tester),
      perform Sprintf nextCap b c σ = (Ok tt, σ')
      /\ testers σ' = <[l := t']> (testers σ)
      /\ BehaviorTester.Params t' = BehaviorTester.Params t
      /\ BehaviorTester.Failed t' = BehaviorTester.Failed t || isFail c
      /\ BehaviorTester.Skipped t' = BehaviorTester.Skipped t || isSkip c
      /\ elems σ' (BehaviorTester.Entries t')
         = (elems σ (BehaviorTester.Entries t)
            ++ [entryOf Sprintf builder c])%list)
  /\
  forall cs : list (behavior.t Dyn * Call),
    exists t',
      testers (snd (performAll Sprintf nextCap cs σ)) !! l = Some t'
      /\ (BehaviorTester.Failed t = true -> BehaviorTester.Failed t' = true)
      /\ (BehaviorTester.Skipped t = true -> BehaviorTester.Skipped t' = true).
Proof.
  intros Hnew Hl.
  destruct (@NewBehavior_inv _ _ _ _ _ Hnew) as (l' & t0 & Hbt & _ & _ & ->).
  injection Hbt as <-.
  split.
  - destruct (@perform_run σ l t (BehaviorTester.Params t0) builder c Hl)
      as (σ' & s' & Hrun & Htesters & Helems & _).
    eexists σ', _. split; [exact Hrun | ].
    split; [exact Htesters | ]. cbn. auto.
  - intros cs.
    destruct (@performAll_grows cs σ l t Hl) as (t' & Hl' & _ & Hf & Hs).
    exists t'. auto.
Qed.

End Recorder.

(** *** Runs on a concrete tester *)

Import client_examples.

Example Pass_keeps_flags :
  exists σ',
    perform plainSprintf twice b0 (CPass "fine") heap0 = (Ok tt, σ')
    /\ testers σ' !! 0
       = Some (BehaviorTester.mk None false true (slice.mk 1 0 2 2))
    /\ elems σ' (slice.mk 1 0 2 2)
       = [basicEntryBuilder_Skip "not ready"; basicEntryBuilder_Pass "fine"].
Proof. eexists. split; [reflexivity | ]. split; vm_compute; reflexivity. Qed.

Example three_calls_three_entries :
  exists σ',
    performAll plainSprintf twice
      [(b0, CPass "one"); (b0, CFailf "two" []); (b0, CSkip "three")] heap0
    = (Ok tt, σ')
    /\ testers σ' !! 0
       = Some (BehaviorTester.mk None true true (slice.mk 2 0 4 4))
    /\ elems σ' (slice.mk 2 0 4 4)
       = [basicEntryBuilder_Skip "not ready";
          basicEntryBuilder_Pass "one";
          basicEntryBuilder_Fail "two";
          basicEntryBuilder_Skip "three"].
Proof. eexists. split; [reflexivity | ]. split; vm_compute; reflexivity. Qed.

(** A status that is neither [Failed] nor [Skipped] only appends. *)
Example putEntry_other_status :
  exists σ',
    putEntry twice (Some 0) any_nil "unknown" heap0 = (Ok tt, σ')
    /\ testers σ' !! 0
       = Some (BehaviorTester.mk None false true (slice.mk 1 0 2 2))
    /\ elems σ' (slice.mk 1 0 2 2)
       = [basicEntryBuilder_Skip "not ready"; any_nil].
Proof. eexists. split; [reflexivity | ]. split; vm_compute; reflexivity. Qed.

(** Without a builder the call panics before the tester is touched. *)
Example nil_Builder_panics :
  perform plainSprintf twice (behavior.mk None (Some 0) None) (CPass "fine") heap0
  = (Panic nilDereference, heap0).
Proof. rewrite perform_putEntry. reflexivity. Qed.

(** [NewBehavior] on a nil tester panics: it reads [bt.Params]. *)
Example NewBehavior_nil_panics :
  NewBehavior None (Some basic) heap0 = (Panic nilDereference, heap0).
Proof. unfold NewBehavior. erewrite bind_panic by reflexivity. reflexivity. Qed.

Lemma reporting_call_records_witness :
  NewBehavior (Some 0) (Some basic) heap0 = (Ok b0, heap0) /\
  testers heap0 !! 0 = Some seen /\
  (exists (σ' : Heap unit) (t' : BehaviorTester.t),
      perform plainSprintf twice b0 (CFail "boom") heap0 = (Ok tt, σ')
      /\ testers σ' = <[0 := t']> (testers heap0)
      /\ BehaviorTester.Params t' = None
      /\ BehaviorTester.Failed t' = true
      /\ BehaviorTester.Skipped t' = true
      /\ elems σ' (BehaviorTester.Entries t')
         = [basicEntryBuilder_Skip "not ready"; basicEntryBuilder_Fail "boom"])
  /\
  forall cs : list (behavior.t unit * @Call unit),
    exists t',
      testers (snd (performAll plainSprintf twice cs heap0)) !! 0 = Some t'
      /\ (BehaviorTester.Failed seen = true -> BehaviorTester.Failed t' = true)
      /\ (BehaviorTester.Skipped seen = true -> BehaviorTester.Skipped t' = true).
Proof.
  split; [reflexivity | ].
  split; [reflexivity | ].
  apply (@reporting_call_records unit plainSprintf twice heap0 heap0 heap0 0
           seen basic b0 (CFail "boom")).
  - reflexivity.
  - reflexivity.
Defined.

(** C10 as it is worded fails on the code: [NewBehavior] accepts the nil
    [EntryBuilder], and on the behavior it returns a call of [Fail]
    panics on the builder; no entry is appended and [Failed] is not
    set. *)
Lemma nil_builder_records_nothing :
  NewBehavior (Some 0) None heap0 = (Ok bnil, heap0) /\
  perform plainSprintf twice bnil (CFail "boom") heap0
  = (Panic nilDereference, heap0) /\
  testers heap0 !! 0
  = Some (BehaviorTester.mk None false true (slice.mk 0 0 1 1)) /\
  elems heap0 (slice.mk 0 0 1 1) = [basicEntryBuilder_Skip "not ready"].
Proof.
  split; [reflexivity | ].
  split; [rewrite perform_putEntry; reflexivity | ].
  split; reflexivity.
Defined.

End client_spec.
(** ** Properties of chains of interceptors *)

Module chain_spec.
Import gort gort_laws transport probe chains transport_spec.
Local Open Scope go_scope.

Section Any.

Context {W context_Context Request ResponseWriter Err : Type}.

Local Abbreviation Handler :=
  (@Handler W context_Context Request ResponseWriter Err).
Local Abbreviation Interceptor :=
  (@Interceptor W context_Context Request ResponseWriter Err).

(** Absent interceptors in a list leave no trace in the handler built
    from it: the handler is the very one built from the interceptors
    that are present. *)
Theorem applyAll_skips_absent (h : Handler) (chain : list Interceptor) :
  applyAll h chain = applyAll h (List.filter isPresent chain).
Proof.
  induction chain as [ | i rest IH]; [reflexivity | ].
  destruct i as [handle | ]; cbn [List.filter isPresent applyAll].
  - now rewrite IH.
  - rewrite <- IH. reflexivity.
Qed.

(** A handler under any number of interceptors, each of them absent or
    [NopInterceptor], runs exactly as the handler alone. *)
Theorem applyAll_nop_transparent (h : Handler) (chain : list Interceptor) :
  Forall (fun i => i = None \/ i = NopInterceptor) chain ->
  forall ctx req resw w,
    Handler_Handle (applyAll h chain) ctx req resw w
    = Handler_Handle h ctx req resw w.
Proof.
  intros Hall ctx req resw w.
  induction Hall as [ | i rest [-> | ->] _ IH]; cbn [applyAll].
  - reflexivity.
  - exact IH.
  - rewrite intercepted_run by (unfold NopInterceptor; discriminate).
    unfold NopInterceptor, Interceptor_Handle, nopInterceptor_Handle.
    exact IH.
Qed.

(** A nil func converted to [InterceptorFunc] is not an absent
    interceptor: it is composed like any other, and every invocation of
    the composed handler panics with a nil dereference before anything
    is done; the handler it was composed with is not invoked. *)
Theorem nil_func_is_not_absent (h : Handler) ctx req resw (w : W) :
  ApplyInterceptor h (InterceptorFunc_as_Interceptor None) <> None
  /\ Handler_Handle (ApplyInterceptor h (InterceptorFunc_as_Interceptor None))
       ctx req resw w
     = (Panic nilDereference, w).
Proof.
  split.
  - rewrite ApplyInterceptor_wraps
      by (unfold InterceptorFunc_as_Interceptor; discriminate).
    unfold interceptedHandler_as_Handler. discriminate.
  - rewrite intercepted_run
      by (unfold InterceptorFunc_as_Interceptor; discriminate).
    reflexivity.
Qed.

(** Two interceptors that rewrite the request on the way in and the
    error on the way out: the handler receives the request rewritten by
    the outer interceptor first and by the inner one next, and its error
    comes back rewritten by the inner interceptor first and by the outer
    one last. *)
Theorem rewrites_compose
    (pre1 pre2 : Request -> Request) (post1 post2 : option Err -> option Err)
    (I1 I2 : Interceptor) (h : Handler) ctx req resw (w : W) :
  Rewrites pre1 post1 I1 ->
  Rewrites pre2 post2 I2 ->
  Handler_Handle (ApplyInterceptor (ApplyInterceptor h I2) I1) ctx req resw w
  = (e <- Handler_Handle h ctx (pre2 (pre1 req)) resw ;;
     ret (post1 (post2 e))) w.
Proof.
  intros [Hn1 H1] [Hn2 H2].
  rewrite intercepted_run by assumption. rewrite H1.
  unfold bind. rewrite intercepted_run by assumption. rewrite H2.
  unfold bind.
  destruct (Handler_Handle h ctx (pre2 (pre1 req)) resw w) as [[e | p] w'];
    reflexivity.
Qed.

Lemma rewriting_Rewrites (pre : Request -> Request)
    (post : option Err -> option Err) :
  Rewrites pre post (rewriting pre post : Interceptor).
Proof.
  split; [unfold rewriting, InterceptorFunc_as_Interceptor; discriminate | ].
  intros ctx req resw next w. reflexivity.
Qed.

End Any.

Section Probed.

Context {St context_Context Request ResponseWriter Err : Type}.

Local Abbreviation World := (World St context_Context Request ResponseWriter).
Local Abbreviation Event := (Event context_Context Request ResponseWriter).
Local Abbreviation Handler :=
  (@Handler World context_Context Request ResponseWriter Err).
Local Abbreviation Interceptor :=
  (@Interceptor World context_Context Request ResponseWriter Err).
Local Abbreviation Body :=
  (context_Context -> Request -> ResponseWriter -> M St (option Err)).

Lemma extend_nil (w : World) : extend w [] = w.
Proof. destruct w as [l s]. unfold extend. cbn. now rewrite app_nil_r. Qed.

Lemma extend_extend (w : World) (es1 es2 : list Event) :
  extend (extend w es1) es2 = extend w (es1 ++ es2).
Proof. unfold extend. cbn. now rewrite app_assoc. Qed.

(** Pass-through probes around any handler [g]: the probes log their
    entries, outermost first, then [g] runs, and when [g] returns they
    log their exits, innermost first; when [g] panics nothing more is
    logged. *)
Lemma passThrough_chain_run (ids : list nat) (chain : list Interceptor) :
  Forall2 PassThrough ids chain ->
  forall (g : Handler) ctx req resw (w : World),
    Handler_Handle (applyAll g chain) ctx req resw w
    = match Handler_Handle g ctx req resw (extend w (map IEnter ids)) with
      | (Ok e, w') => (Ok e, extend w' (map IExit (rev ids)))
      | (Panic p, w') => (Panic p, w')
      end.
Proof.
  induction 1 as [ | id i ids chain [Hn Hrun] _ IH]; intros g ctx req resw w.
  - cbn [applyAll map rev]. rewrite extend_nil.
    destruct (Handler_Handle g ctx req resw w) as [[e | p] w'];
      [now rewrite extend_nil | reflexivity].
  - cbn [applyAll]. rewrite intercepted_run by assumption. rewrite Hrun.
    unfold bind at 1. unfold emit at 1.
    change {| log := log w ++ [IEnter id]; user := user w |}
      with (extend w [IEnter id]).
    unfold bind at 1. rewrite IH. rewrite extend_extend.
    cbn [map rev app].
    destruct (Handler_Handle g ctx req resw
                (extend w (IEnter id :: map IEnter ids))) as [[e | p] w'];
      [ | reflexivity].
    unfold bind, emit, ret.
    change {| log := log (extend w' (map IExit (rev ids))) ++ [IExit id];
              user := user (extend w' (map IExit (rev ids))) |}
      with (extend (extend w' (map IExit (rev ids))) [IExit id]).
    rewrite extend_extend, map_app. reflexivity.
Qed.

(** Any number of pass-through probes around a handler that returns: the
    log gains the entries of the probes from the outermost to the
    innermost, the call of the handler with the arguments of the
    invocation, and the exits of the probes from the innermost to the
    outermost; the handler's result, error or nil, is returned as it
    is. *)
Theorem probes_enter_in_order_exit_in_reverse
    (ids : list nat) (chain : list Interceptor) (body : Body)
    ctx req resw (w : World) (e : option Err) (s' : St) :
  Forall2 PassThrough ids chain ->
  body ctx req resw (user w) = (Ok e, s') ->
  Handler_Handle (applyAll (probedHandler body) chain) ctx req resw w
  = (Ok e,
     {| log := log w ++ map IEnter ids ++ [HCall ctx req resw]
                     ++ map IExit (rev ids);
        user := s' |}).
Proof.
  intros Hchain Hbody.
  rewrite (passThrough_chain_run Hchain), probedHandler_run.
  unfold extend. cbn [log user]. rewrite Hbody. cbn [fst snd log user].
  now rewrite <- !app_assoc.
Qed.

(** Any number of pass-through probes around a handler that panics: the
    composed handler panics with the same value, and the log gains the
    entries of the probes and the call of the handler, but no exit. *)
Theorem panic_unwinds_the_chain
    (ids : list nat) (chain : list Interceptor) (body : Body)
    ctx req resw (w : World) (p : PanicValue) (s' : St) :
  Forall2 PassThrough ids chain ->
  body ctx req resw (user w) = (Panic p, s') ->
  Handler_Handle (applyAll (probedHandler body) chain) ctx req resw w
  = (Panic p,
     {| log := log w ++ map IEnter ids ++ [HCall ctx req resw];
        user := s' |}).
Proof.
  intros Hchain Hbody.
  rewrite (passThrough_chain_run Hchain), probedHandler_run.
  unfold extend. cbn [log user]. rewrite Hbody. cbn [fst snd].
  now rewrite <- !app_assoc.
Qed.

(** An interceptor that never calls its next handler, under any number
    of pass-through probes and above any handler [g] at all: the probes
    above it are entered and, when it returns, left in reverse order
    with its result; nothing of [g] is run, whatever [g] is made of. *)
Theorem short_circuit_cuts_the_chain
    (ids : list nat) (above : list Interceptor) (I : Interceptor)
    (synth : Body) (g : Handler) ctx req resw (w : World) :
  Forall2 PassThrough ids above ->
  NeverCallsNext I synth ->
  Handler_Handle (applyAll (ApplyInterceptor g I) above) ctx req resw w
  = match synth ctx req resw (user w) with
    | (Ok e, s') =>
        (Ok e, {| log := log w ++ map IEnter ids ++ map IExit (rev ids);
                  user := s' |})
    | (Panic p, s') =>
        (Panic p, {| log := log w ++ map IEnter ids; user := s' |})
    end.
Proof.
  intros Habove [Hn Hskip].
  rewrite (passThrough_chain_run Habove).
  rewrite intercepted_run by assumption. rewrite Hskip.
  unfold liftUser, extend. cbn [log user].
  destruct (synth ctx req resw (user w)) as [[e | p] s'];
    cbn [log user]; [now rewrite <- app_assoc | reflexivity].
Qed.

(** An interceptor that calls its next handler twice, above any number
    of pass-through probes around a handler that returns both times:
    every probe below it is entered and left twice, a whole round per
    call, the handler is called once in each round, and the result of
    the second round is returned. *)
Theorem retry_runs_the_chain_twice
    (ids : list nat) (below : list Interceptor) (I : Interceptor)
    (body : Body) ctx req resw (w : World)
    (e1 e2 : option Err) (s1 s2 : St) :
  CallsNextTwice I ->
  Forall2 PassThrough ids below ->
  body ctx req resw (user w) = (Ok e1, s1) ->
  body ctx req resw s1 = (Ok e2, s2) ->
  Handler_Handle
    (ApplyInterceptor (applyAll (probedHandler body) below) I)
    ctx req resw w
  = (Ok e2,
     {| log := log w
               ++ (map IEnter ids ++ [HCall ctx req resw]
                   ++ map IExit (rev ids))
               ++ (map IEnter ids ++ [HCall ctx req resw]
                   ++ map IExit (rev ids));
        user := s2 |}).
Proof.
  intros [Hn Htwice] Hbelow Hfirst Hsecond.
  rewrite intercepted_run by assumption. rewrite Htwice.
  erewrite bind_ok; cycle 1.
  { rewrite (passThrough_chain_run Hbelow), probedHandler_run.
    unfold extend. cbn [log user]. rewrite Hfirst. reflexivity. }
  rewrite (passThrough_chain_run Hbelow), probedHandler_run.
  unfold extend. cbn [log user fst snd]. rewrite Hsecond.
  cbn [fst snd log user]. now rewrite <- !app_assoc.
Qed.

End Probed.

(** *** Runs on concrete chains *)

Import examples chain_examples.
Local Open Scope string_scope.

Lemma three_PassThrough : Forall2 PassThrough [1; 2; 3] three.
Proof. unfold three. repeat constructor; apply passThrough_PassThrough. Qed.

Lemma applyAll_nop_transparent_witness :
  Forall (fun i : ExInterceptor => i = None \/ i = NopInterceptor)
    [NopInterceptor; None; NopInterceptor] /\
  Handler_Handle (applyAll H [NopInterceptor; None; NopInterceptor]) tt 7 tt w0
  = Handler_Handle H tt 7 tt w0.
Proof.
  assert (Hall : Forall (fun i : ExInterceptor => i = None \/ i = NopInterceptor)
                   [NopInterceptor; None; NopInterceptor])
    by (repeat constructor; auto).
  split; [exact Hall | ].
  apply (@applyAll_nop_transparent ExWorld unit nat unit string H _ Hall).
Defined.

Lemma rewrites_compose_witness :
  Rewrites (fun req => 2 * req) (fun _ : option string => None) doubling /\
  Rewrites (fun req => req + 1)
    (fun e : option string =>
       match e with None => Some "no error" | Some msg => Some msg end)
    bumping /\
  Handler_Handle
    (ApplyInterceptor (ApplyInterceptor (probedHandler picky) bumping) doubling)
    tt 4 tt w0
  = (Ok None, {| log := [HCall tt 9 tt]; user := 1 |}).
Proof.
  split; [apply rewriting_Rewrites | ].
  split; [apply rewriting_Rewrites | ].
  apply (@rewrites_compose ExWorld unit nat unit string
           (fun req => 2 * req) (fun req => req + 1)
           (fun _ => None)
           (fun e => match e with None => Some "no error" | Some msg => Some msg end)
           doubling bumping (probedHandler picky) tt 4 tt w0);
    apply rewriting_Rewrites.
Defined.

Lemma probes_enter_in_order_exit_in_reverse_witness :
  Forall2 PassThrough [1; 2; 3] three /\
  flaky tt 7 tt (user w0) = (Ok (Some "try again"), 1) /\
  Handler_Handle (applyAll H three) tt 7 tt w0
  = (Ok (Some "try again"),
     {| log := [IEnter 1; IEnter 2; IEnter 3; HCall tt 7 tt;
                IExit 3; IExit 2; IExit 1];
        user := 1 |}).
Proof.
  split; [exact three_PassThrough | ].
  split; [reflexivity | ].
  apply (@probes_enter_in_order_exit_in_reverse St unit nat unit string
           [1; 2; 3] three flaky tt 7 tt w0 (Some "try again") 1
           three_PassThrough).
  reflexivity.
Defined.

Lemma panic_unwinds_the_chain_witness :
  Forall2 PassThrough [1; 2; 3] three /\
  broken tt 7 tt (user w0) = (Panic (userPanic "broken"), 0) /\
  Handler_Handle (applyAll (probedHandler broken) three) tt 7 tt w0
  = (Panic (userPanic "broken"),
     {| log := [IEnter 1; IEnter 2; IEnter 3; HCall tt 7 tt]; user := 0 |}).
Proof.
  split; [exact three_PassThrough | ].
  split; [reflexivity | ].
  apply (@panic_unwinds_the_chain St unit nat unit string
           [1; 2; 3] three broken tt 7 tt w0 (userPanic "broken") 0
           three_PassThrough).
  reflexivity.
Defined.

Lemma short_circuit_cuts_the_chain_witness :
  Forall2 PassThrough [1; 2; 3] three /\
  NeverCallsNext gate deny /\
  Handler_Handle (applyAll (ApplyInterceptor H gate) three) tt 7 tt w0
  = (Ok (Some "denied"),
     {| log := [IEnter 1; IEnter 2; IEnter 3; IExit 3; IExit 2; IExit 1];
        user := 0 |}).
Proof.
  split; [exact three_PassThrough | ].
  split; [apply shortCircuit_NeverCallsNext | ].
  apply (@short_circuit_cuts_the_chain St unit nat unit string
           [1; 2; 3] three gate deny H tt 7 tt w0 three_PassThrough
           (shortCircuit_NeverCallsNext deny)).
Defined.

Lemma retry_runs_the_chain_twice_witness :
  CallsNextTwice retry /\
  Forall2 PassThrough [1; 2; 3] three /\
  flaky tt 7 tt (user w0) = (Ok (Some "try again"), 1) /\
  flaky tt 7 tt 1 = (Ok None, 2) /\
  Handler_Handle (ApplyInterceptor (applyAll H three) retry) tt 7 tt w0
  = (Ok None,
     {| log := [IEnter 1; IEnter 2; IEnter 3; HCall tt 7 tt;
                IExit 3; IExit 2; IExit 1;
                IEnter 1; IEnter 2; IEnter 3; HCall tt 7 tt;
                IExit 3; IExit 2; IExit 1];
        user := 2 |}).
Proof.
  split; [apply callTwice_CallsNextTwice | ].
  split; [exact three_PassThrough | ].
  split; [reflexivity | ].
  split; [reflexivity | ].
  apply (@retry_runs_the_chain_twice St unit nat unit string
           [1; 2; 3] three retry flaky tt 7 tt w0 (Some "try again") None 1 2
           callTwice_CallsNextTwice three_PassThrough);
    reflexivity.
Defined.

End chain_spec.


(** ** More properties of package client *)

Module record_spec.
Import gort gort_laws client records client_spec.
Local Open Scope go_scope.
Local Open Scope string_scope.

Section Records.

Context {Dyn : Type}.
Variable Sprintf : string -> list (any Dyn) -> string.
Variable nextCap : nat -> nat.

Local Abbreviation Heap := (Heap Dyn).
Local Abbreviation Tester := BehaviorTester.t.
Local Abbreviation Call := (@Call Dyn).

(** A reporting call is all or nothing.  It panics with a nil
    dereference, having changed nothing at all (no flag is set without
    its entry), exactly when the behavior has no builder or no allocated
    tester; otherwise it returns, having set the flag and appended the
    entry to the tester's [Entries]. *)
Theorem call_is_all_or_nothing (b : behavior.t Dyn) (c : Call) (σ : Heap) :
  (perform Sprintf nextCap b c σ = (Panic nilDereference, σ)
   /\ (behavior.Builder b = None
       \/ forall l, behavior.Tester b = Some l -> testers σ !! l = None))
  \/
  (exists builder l t (σ' : Heap) (t' : Tester),
      behavior.Builder b = Some builder
      /\ behavior.Tester b = Some l
      /\ testers σ !! l = Some t
      /\ perform Sprintf nextCap b c σ = (Ok tt, σ')
      /\ testers σ' = <[l := t']> (testers σ)
      /\ BehaviorTester.Params t' = BehaviorTester.Params t
      /\ BehaviorTester.Failed t' = BehaviorTester.Failed t || isFail c
      /\ BehaviorTester.Skipped t' = BehaviorTester.Skipped t || isSkip c
      /\ elems σ' (BehaviorTester.Entries t')
         = (elems σ (BehaviorTester.Entries t)
            ++ [entryOf Sprintf builder c])%list).
Proof.
  destruct b as [params bt [builder | ]].
  - destruct bt as [l | ]; [destruct (testers σ !! l) as [t | ] eqn:Hl | ].
    + right.
      destruct (@perform_run _ Sprintf nextCap σ l t params builder c Hl)
        as (σ' & s' & Hrun & Htesters & Helems & _).
      exists builder, l, t, σ'. eexists. cbn [behavior.Builder behavior.Tester].
      split; [reflexivity | ]. split; [reflexivity | ].
      split; [exact Hl | ]. split; [exact Hrun | ].
      split; [exact Htesters | ]. cbn. auto.
    + left. split.
      * rewrite perform_putEntry. cbn [behavior.Builder behavior.Tester].
        apply putEntry_nowhere. intros l' [= <-]. exact Hl.
      * right. cbn. intros l' [= <-]. exact Hl.
    + left. split.
      * rewrite perform_putEntry. cbn [behavior.Builder behavior.Tester].
        apply putEntry_nowhere. intros l' [=].
      * right. cbn. intros l' [=].
  - left. split; [ | left; reflexivity].
    rewrite perform_putEntry. reflexivity.
Qed.

(** Calls made one after the other on behaviors of one tester, each with
    a builder of its own: all of them return, the entries are appended
    in the order of the calls, whichever behavior made them, and each
    flag ends up set when it was set before or one of the calls set
    it. *)
Theorem series_is_recorded_in_order
    (cs : list (behavior.t Dyn * Call)) :
  forall (σ : Heap) (l : nat) (t : Tester),
    Forall (reportsTo l) cs ->
    testers σ !! l = Some t ->
    exists (σ' : Heap) (t' : Tester),
      performAll Sprintf nextCap cs σ = (Ok tt, σ')
      /\ testers σ' = <[l := t']> (testers σ)
      /\ BehaviorTester.Params t' = BehaviorTester.Params t
      /\ BehaviorTester.Failed t'
         = BehaviorTester.Failed t || existsb (fun bc => isFail (snd bc)) cs
      /\ BehaviorTester.Skipped t'
         = BehaviorTester.Skipped t || existsb (fun bc => isSkip (snd bc)) cs
      /\ elems σ' (BehaviorTester.Entries t')
         = (elems σ (BehaviorTester.Entries t) ++ entriesOf Sprintf cs)%list.
Proof.
  induction cs as [ | [b c] cs IH]; intros σ l t Hall Hl.
  - exists σ, t. cbn [performAll existsb entriesOf].
    split; [reflexivity | ].
    split; [now rewrite insert_id | ].
    now rewrite !orb_false_r, app_nil_r.
  - inversion Hall as [ | bc cs' [Hbt Hbuilder] Hrest]; subst.
    cbn [fst] in Hbt, Hbuilder.
    destruct b as [params bt [builder | ]]; cbn in Hbt, Hbuilder;
      [subst bt | congruence].
    destruct (@perform_run _ Sprintf nextCap σ l t params builder c Hl)
      as (σ1 & s1 & Hrun & Htesters & Helems & _).
    destruct (IH σ1 l _ Hrest
                ltac:(rewrite Htesters; apply lookup_insert_eq))
      as (σ' & t' & Hrest_run & Htesters' & Hp & Hf & Hs & He).
    exists σ', t'. cbn [performAll existsb entriesOf snd behavior.Builder].
    split; [now erewrite bind_ok by exact Hrun | ].
    split; [now rewrite Htesters', Htesters, insert_insert_eq | ].
    cbn in Hp, Hf, Hs, He.
    split; [exact Hp | ].
    split; [now rewrite Hf, orb_assoc | ].
    split; [now rewrite Hs, orb_assoc | ].
    now rewrite He, Helems, <- app_assoc.
Qed.

(** [putEntry] with any status string at all: the entry is appended, and
    afterwards [Failed] is set exactly when it was set before or the
    status is the string failed, [Skipped] exactly when it was set before
    or the status is the string skipped; any other status, passed
    included, sets neither. *)
Theorem putEntry_flags_follow_status
    (σ : Heap) (l : nat) (t : Tester) entry (status : Status) :
  testers σ !! l = Some t ->
  exists (σ' : Heap) (t' : Tester),
    putEntry nextCap (Some l) entry status σ = (Ok tt, σ')
    /\ testers σ' = <[l := t']> (testers σ)
    /\ elems σ' (BehaviorTester.Entries t')
       = (elems σ (BehaviorTester.Entries t) ++ [entry])%list
    /\ BehaviorTester.Params t' = BehaviorTester.Params t
    /\ (BehaviorTester.Failed t' = true
        <-> BehaviorTester.Failed t = true \/ status = Failed)
    /\ (BehaviorTester.Skipped t' = true
        <-> BehaviorTester.Skipped t = true \/ status = Skipped).
Proof.
  intros Hl.
  destruct (@putEntry_run _ nextCap σ l t entry status Hl)
    as (σ' & s' & Hrun & Htesters & Helems & _).
  exists σ'. eexists. split; [exact Hrun | ]. split; [exact Htesters | ].
  cbn. split; [exact Helems | ]. split; [reflexivity | ].
  rewrite !orb_true_iff, andb_true_iff, negb_true_iff, !String.eqb_eq.
  split; [reflexivity | ].
  split.
  - intros [Hs | [_ Hs]]; auto.
  - intros [Hs | ->]; [auto | ]. right. split; reflexivity.
Qed.

(** A behavior made by [NewBehavior] does not go stale: [NewBehavior]
    itself changes nothing, and after any calls whatever, on any
    behaviors, a call on that behavior still finds its tester and
    returns, provided the behavior was given a builder. *)
Theorem behavior_stays_usable
    (σ σ' : Heap) (l : nat) (builder : EntryBuilder.methods Dyn)
    (b : behavior.t Dyn) :
  NewBehavior (Some l) (Some builder) σ = (Ok b, σ') ->
  σ' = σ
  /\ forall (cs : list (behavior.t Dyn * Call)) (c : Call),
       fst (perform Sprintf nextCap b c
              (snd (performAll Sprintf nextCap cs σ)))
       = Ok tt.
Proof.
  intros Hnew.
  destruct (@NewBehavior_inv _ _ _ _ _ _ Hnew) as (l' & t & Hbt & Hl & -> & ->).
  injection Hbt as <-.
  split; [reflexivity | ].
  intros cs c.
  destruct (@performAll_grows _ Sprintf nextCap cs σ l t Hl) as (t' & Hl' & _).
  destruct (@perform_run _ Sprintf nextCap _ l t' (BehaviorTester.Params t)
              builder c Hl') as (σ1 & s1 & Hrun & _).
  now rewrite Hrun.
Qed.

(** *** Testers that share no array *)

(** What a call does to the heap: nothing, or the whole update of the
    tester it was made on. *)
Lemma perform_cases (b : behavior.t Dyn) (c : Call) (σ : Heap) :
  snd (perform Sprintf nextCap b c σ) = σ
  \/
  exists builder l t (σ' : Heap) s',
    behavior.Builder b = Some builder
    /\ behavior.Tester b = Some l
    /\ testers σ !! l = Some t
    /\ perform Sprintf nextCap b c σ = (Ok tt, σ')
    /\ testers σ'
       = <[l := BehaviorTester.mk
                 (BehaviorTester.Params t)
                 (BehaviorTester.Failed t || isFail c)
                 (BehaviorTester.Skipped t || isSkip c)
                 s']> (testers σ)
    /\ elems σ' s'
       = (elems σ (BehaviorTester.Entries t) ++ [entryOf Sprintf builder c])%list
    /\ touches σ (BehaviorTester.Entries t) σ' s'.
Proof.
  destruct b as [params bt [builder | ]].
  - destruct bt as [l | ]; [destruct (testers σ !! l) as [t | ] eqn:Hl | ].
    + right.
      destruct (@perform_run _ Sprintf nextCap σ l t params builder c Hl)
        as (σ' & s' & Hrun & Htesters & Helems & Htouch).
      exists builder, l, t, σ', s'. auto 10.
    + left. rewrite perform_putEntry. cbn [behavior.Builder behavior.Tester].
      rewrite putEntry_nowhere; [reflexivity | ]. intros l' [= <-]. exact Hl.
    + left. rewrite perform_putEntry. cbn [behavior.Builder behavior.Tester].
      rewrite putEntry_nowhere; [reflexivity | ]. intros l' [=].
  - left. rewrite perform_putEntry. reflexivity.
Qed.

(** The elements of a slice are as they were when the cells of its array
    are. *)
Lemma elems_same_cells (σ σ' : Heap) (s : slice.t) :
  (forall a i, slice.array s = Some a -> cells σ' !! (a, i) = cells σ !! (a, i)) ->
  elems σ' s = elems σ s.
Proof.
  intros Hsame. destruct s as [ | a off n c]; [reflexivity | ].
  cbn [elems]. apply map_ext. intros i. unfold cell.
  now rewrite (Hsame a (off + i) eq_refl).
Qed.

(** One call on a heap whose testers share no array: they still share
    none afterwards, and a tester the call was not made on is as it
    was, record and elements. *)
Lemma perform_separated (b : behavior.t Dyn) (c : Call) (σ : Heap) :
  separated σ ->
  separated (snd (perform Sprintf nextCap b c σ))
  /\ forall l' t',
       behavior.Tester b <> Some l' ->
       testers σ !! l' = Some t' ->
       testers (snd (perform Sprintf nextCap b c σ)) !! l' = Some t'
       /\ elems (snd (perform Sprintf nextCap b c σ)) (BehaviorTester.Entries t')
          = elems σ (BehaviorTester.Entries t').
Proof.
  intros [Halloc Hown].
  destruct (perform_cases b c σ)
    as [-> | (builder & l & t & σ' & s' & _ & Hbt & Hl & -> & Htesters
              & _ & [Hmoved Hcells])];
    [split; [split; assumption | auto] | ].
  cbn [snd].
  assert (Hnext : next σ <= next σ')
    by (destruct Hmoved as [[_ ->] | [_ ->]]; lia).
  assert (Hnew : forall a, slice.array s' = Some a ->
             slice.array (BehaviorTester.Entries t) = Some a \/ a = next σ).
  { intros a Ha. destruct Hmoved as [[Hsame _] | [Hfresh _]];
      [left | right]; congruence. }
  split; [split | ].
  - intros l0 t0 a Hl0 Ha. rewrite Htesters in Hl0.
    apply lookup_insert_Some in Hl0 as [[<- <-] | [_ Hl0]].
    + cbn in Ha. destruct Hmoved as [[Hsame Hn] | [Hfresh Hn]].
      * rewrite Hn. apply (Halloc l t a Hl). congruence.
      * rewrite Hn. assert (a = next σ) by congruence. lia.
    + pose proof (Halloc l0 t0 a Hl0 Ha). lia.
  - intros l1 l2 t1 t2 a Hl1 Hl2 Ha1 Ha2. rewrite Htesters in Hl1, Hl2.
    apply lookup_insert_Some in Hl1 as [[<- <-] | [Hne1 Hl1]];
      apply lookup_insert_Some in Hl2 as [[<- <-] | [Hne2 Hl2]].
    + reflexivity.
    + cbn in Ha1. destruct (Hnew a Ha1) as [Hold | ->].
      * exact (Hown l l2 t t2 a Hl Hl2 Hold Ha2).
      * pose proof (Halloc l2 t2 _ Hl2 Ha2). lia.
    + cbn in Ha2. destruct (Hnew a Ha2) as [Hold | ->].
      * exact (Hown l1 l t1 t a Hl1 Hl Ha1 Hold).
      * pose proof (Halloc l1 t1 _ Hl1 Ha1). lia.
    + exact (Hown l1 l2 t1 t2 a Hl1 Hl2 Ha1 Ha2).
  - intros l' t' Hne Hl'.
    assert (l <> l') by congruence.
    split; [rewrite Htesters; now rewrite lookup_insert_ne | ].
    apply elems_same_cells. intros a i Ha. apply Hcells.
    + intros Hshared. apply H. exact (Hown l l' t t' a Hl Hl' Hshared Ha).
    + exact (Halloc l' t' a Hl' Ha).
Qed.

(** When no two testers share a backing array, calls change only the
    tester their behavior points to: a tester that none of the behaviors
    of a series points to has the same record and the same elements
    after the series as before, also when the series panics on the
    way. *)
Theorem calls_touch_only_their_tester
    (cs : list (behavior.t Dyn * Call)) (l' : nat) (t' : Tester) :
  forall σ : Heap,
    separated σ ->
    testers σ !! l' = Some t' ->
    Forall (fun bc => behavior.Tester (fst bc) <> Some l') cs ->
    testers (snd (performAll Sprintf nextCap cs σ)) !! l' = Some t'
    /\ elems (snd (performAll Sprintf nextCap cs σ)) (BehaviorTester.Entries t')
       = elems σ (BehaviorTester.Entries t').
Proof.
  induction cs as [ | [b c] cs IH]; intros σ Hsep Hl' Hall; [now split | ].
  inversion Hall as [ | bc cs' Hb Hrest]; subst. cbn [fst] in Hb.
  destruct (perform_separated b c Hsep) as [Hsep1 Hframe].
  destruct (Hframe l' t' Hb Hl') as [Hl1 He1].
  cbn [performAll]. unfold bind.
  destruct (perform Sprintf nextCap b c σ) as [[[] | p] σ1]; cbn [snd] in *.
  - destruct (IH σ1 Hsep1 Hl1 Hrest) as [Hl2 He2].
    split; [exact Hl2 | now rewrite He2].
  - now split.
Qed.

(** With [BasicEntryBuilder], and when no two testers share a backing
    array, the flags and the entries cannot disagree: when in every
    tester [Failed] is set exactly if an entry has the status failed,
    and [Skipped] exactly if an entry has the status skipped, this is
    still so after any calls on behaviors built with
    [BasicEntryBuilder]. *)
Theorem BasicEntryBuilder_keeps_flags_and_entries_agreeing
    (cs : list (behavior.t Dyn * Call)) :
  forall σ : Heap,
    separated σ ->
    Forall (fun bc => behavior.Builder (fst bc) = BasicEntryBuilder) cs ->
    (forall l t, testers σ !! l = Some t -> consistent σ t) ->
    forall l t,
      testers (snd (performAll Sprintf nextCap cs σ)) !! l = Some t ->
      consistent (snd (performAll Sprintf nextCap cs σ)) t.
Proof.
  induction cs as [ | [b c] cs IH]; intros σ Hsep Hall Hσ; [exact Hσ | ].
  inversion Hall as [ | bc cs' Hb Hrest]; subst. cbn [fst] in Hb.
  destruct (perform_separated b c Hsep) as [Hsep1 Hframe].
  assert (Hσ1 : forall l t,
             testers (snd (perform Sprintf nextCap b c σ)) !! l = Some t ->
             consistent (snd (perform Sprintf nextCap b c σ)) t).
  { destruct (perform_cases b c σ)
      as [Hsame | (builder & l0 & t0 & σ' & s' & Hbuilder & Hbt & Hl0 & Hrun
                   & Htesters & Helems & _)].
    - rewrite Hsame. exact Hσ.
    - intros l t Hl. destruct (decide (l0 = l)) as [<- | Hne].
      + rewrite Hrun in Hl |- *. cbn [snd] in *.
        rewrite Htesters, lookup_insert_eq in Hl. injection Hl as <-.
        destruct (Hσ _ _ Hl0) as [Hf Hs].
        unfold consistent. cbn [BehaviorTester.Failed BehaviorTester.Skipped
                                BehaviorTester.Entries].
        rewrite Helems, !existsb_app, <- Hf, <- Hs.
        rewrite Hb in Hbuilder. unfold BasicEntryBuilder in Hbuilder.
        injection Hbuilder as <-.
        destruct c; cbn; now rewrite ?orb_false_r, ?orb_true_r.
      + assert (Hold : testers σ !! l = Some t).
        { rewrite Hrun in Hl. cbn [snd] in Hl.
          now rewrite Htesters, lookup_insert_ne in Hl. }
        destruct (Hframe l t ltac:(congruence) Hold) as [_ He].
        destruct (Hσ _ _ Hold) as [Hf Hs].
        unfold consistent. now rewrite He. }
  cbn [performAll]. unfold bind.
  destruct (perform Sprintf nextCap b c σ) as [[[] | p] σ1]; cbn [snd] in *.
  - exact (IH σ1 Hsep1 Hrest Hσ1).
  - exact Hσ1.
Qed.

(** *** Testers that share an array *)

(** [append] writes into the array it is given when there is room: when
    the [Entries] of another tester cover the cell after the last entry
    of the tester a call is made on, the call changes the element the
    other tester has there to the new entry; the record of the other
    tester, its flags and the length of its [Entries], stays as it
    was. *)
Theorem call_overwrites_shared_cell
    (σ : Heap) (l l' : nat) (t t' : Tester) (params : Params)
    (builder : EntryBuilder.methods Dyn) (c : Call)
    (a off n cap off' n' cap' : nat) :
  testers σ !! l = Some t ->
  BehaviorTester.Entries t = slice.mk a off n cap ->
  n < cap ->
  l' <> l ->
  testers σ !! l' = Some t' ->
  BehaviorTester.Entries t' = slice.mk a off' n' cap' ->
  off' <= off + n < off' + n' ->
  testers (snd (perform Sprintf nextCap
                  (behavior.mk params (Some l) (Some builder)) c σ)) !! l'
  = Some t'
  /\ elems (snd (perform Sprintf nextCap
                   (behavior.mk params (Some l) (Some builder)) c σ))
       (BehaviorTester.Entries t') !! (off + n - off')
     = Some (entryOf Sprintf builder c).
Proof.
  intros Hl He Hroom Hne Hl' He' Hin.
  rewrite perform_putEntry. cbn [behavior.Builder behavior.Tester].
  erewrite putEntry_via_append by exact Hl.
  rewrite He, append_in_place by assumption. cbn [fst snd testers].
  split; [now rewrite lookup_insert_ne by congruence | ].
  rewrite He'. cbn [elems].
  rewrite list_lookup_fmap, lookup_seq_lt by lia. cbn [fmap option_fmap option_map].
  unfold cell. cbn [cells Nat.add].
  replace (off' + (off + n - off')) with (off + n) by lia.
  now rewrite lookup_insert_eq.
Qed.

End Records.

(** *** Runs on concrete testers *)

Import client_examples record_examples.

Lemma heap2_testers (l : nat) (t : BehaviorTester.t) :
  testers heap2 !! l = Some t ->
  (l = 0 /\ t = blank) \/ (l = 1 /\ t = passedOnce).
Proof.
  intros Hl. cbn [heap2 testers] in Hl.
  apply lookup_insert_Some in Hl as [[<- <-] | [_ Hl]]; [now left | ].
  apply lookup_singleton_Some in Hl as [<- <-]. now right.
Qed.

Lemma heap2_separated : separated heap2.
Proof.
  split.
  - intros l t a Hl Ha.
    destruct (@heap2_testers _ _ Hl) as [[-> ->] | [-> ->]]; [discriminate | ].
    injection Ha as <-. cbn. lia.
  - intros l1 l2 t1 t2 a Hl1 Hl2 Ha1 Ha2.
    destruct (@heap2_testers _ _ Hl1) as [[-> ->] | [-> ->]]; [discriminate | ].
    destruct (@heap2_testers _ _ Hl2) as [[-> ->] | [-> ->]]; [discriminate | ].
    reflexivity.
Qed.

Lemma heap2_consistent :
  forall l t, testers heap2 !! l = Some t -> consistent heap2 t.
Proof.
  intros l t Hl.
  destruct (@heap2_testers _ _ Hl) as [[-> ->] | [-> ->]]; split; reflexivity.
Qed.

Lemma series_is_recorded_in_order_witness :
  Forall (reportsTo 0) series /\
  testers heap2 !! 0 = Some blank /\
  exists (σ' : Heap unit) (t' : BehaviorTester.t),
    performAll plainSprintf twice series heap2 = (Ok tt, σ')
    /\ testers σ' = <[0 := t']> (testers heap2)
    /\ BehaviorTester.Params t' = None
    /\ BehaviorTester.Failed t' = true
    /\ BehaviorTester.Skipped t' = true
    /\ elems σ' (BehaviorTester.Entries t')
       = [basicEntryBuilder_Pass "a";
          basicEntryBuilder_Fail "b";
          basicEntryBuilder_Skip "c"].
Proof.
  assert (Hall : Forall (reportsTo 0) series).
  { unfold series. repeat constructor; discriminate. }
  split; [exact Hall | ].
  split; [reflexivity | ].
  apply (@series_is_recorded_in_order unit plainSprintf twice series heap2 0
           blank Hall).
  reflexivity.
Defined.

Lemma putEntry_flags_follow_status_witness :
  testers heap0 !! 0 = Some seen /\
  exists (σ' : Heap unit) (t' : BehaviorTester.t),
    putEntry twice (Some 0) (basicEntryBuilder_Fail "boom") "failed" heap0
    = (Ok tt, σ')
    /\ testers σ' = <[0 := t']> (testers heap0)
    /\ elems σ' (BehaviorTester.Entries t')
       = [basicEntryBuilder_Skip "not ready"; basicEntryBuilder_Fail "boom"]
    /\ BehaviorTester.Params t' = None
    /\ (BehaviorTester.Failed t' = true
        <-> BehaviorTester.Failed seen = true \/ "failed" = Failed)
    /\ (BehaviorTester.Skipped t' = true
        <-> BehaviorTester.Skipped seen = true \/ "failed" = Skipped).
Proof.
  split; [reflexivity | ].
  apply (@putEntry_flags_follow_status unit twice heap0 0 seen
           (basicEntryBuilder_Fail "boom") "failed").
  reflexivity.
Defined.

Lemma behavior_stays_usable_witness :
  NewBehavior (Some 0) (Some basic) heap2 = (Ok second, heap2) /\
  heap2 = heap2 /\
  forall (cs : list (behavior.t unit * @Call unit)) (c : @Call unit),
    fst (perform plainSprintf twice second c
           (snd (performAll plainSprintf twice cs heap2)))
    = Ok tt.
Proof.
  split; [reflexivity | ].
  apply (@behavior_stays_usable unit plainSprintf twice heap2 heap2 0 basic
           second).
  reflexivity.
Defined.

Lemma calls_touch_only_their_tester_witness :
  separated heap2 /\
  testers heap2 !! 1 = Some passedOnce /\
  Forall (fun bc : behavior.t unit * @Call unit =>
            behavior.Tester (fst bc) <> Some 1) series /\
  testers (snd (performAll plainSprintf twice series heap2)) !! 1
  = Some passedOnce /\
  elems (snd (performAll plainSprintf twice series heap2))
    (BehaviorTester.Entries passedOnce)
  = [basicEntryBuilder_Pass "ok"].
Proof.
  assert (Hall : Forall (fun bc : behavior.t unit * @Call unit =>
                           behavior.Tester (fst bc) <> Some 1) series).
  { unfold series. repeat constructor; discriminate. }
  split; [exact heap2_separated | ].
  split; [reflexivity | ].
  split; [exact Hall | ].
  apply (@calls_touch_only_their_tester unit plainSprintf twice series 1
           passedOnce heap2 heap2_separated eq_refl Hall).
Defined.

Lemma BasicEntryBuilder_keeps_flags_and_entries_agreeing_witness :
  separated heap2 /\
  Forall (fun bc : behavior.t unit * @Call unit =>
            behavior.Builder (fst bc) = BasicEntryBuilder) mixed /\
  (forall l t, testers heap2 !! l = Some t -> consistent heap2 t) /\
  forall l t,
    testers (snd (performAll plainSprintf twice mixed heap2)) !! l = Some t ->
    consistent (snd (performAll plainSprintf twice mixed heap2)) t.
Proof.
  assert (Hall : Forall (fun bc : behavior.t unit * @Call unit =>
                           behavior.Builder (fst bc) = BasicEntryBuilder) mixed).
  { unfold mixed. repeat constructor. }
  split; [exact heap2_separated | ].
  split; [exact Hall | ].
  split; [exact heap2_consistent | ].
  apply (@BasicEntryBuilder_keeps_flags_and_entries_agreeing unit plainSprintf
           twice mixed heap2 heap2_separated Hall heap2_consistent).
Defined.

Lemma call_overwrites_shared_cell_witness :
  testers sharing !! 0 = Some shorter /\
  BehaviorTester.Entries shorter = slice.mk 0 0 1 4 /\
  1 < 4 /\
  1 <> 0 /\
  testers sharing !! 1 = Some longer /\
  BehaviorTester.Entries longer = slice.mk 0 0 2 4 /\
  0 <= 0 + 1 < 0 + 2 /\
  testers (snd (perform plainSprintf twice
                  (behavior.mk None (Some 0) (Some basic)) (CFail "new")
                  sharing)) !! 1
  = Some longer /\
  elems (snd (perform plainSprintf twice
                (behavior.mk None (Some 0) (Some basic)) (CFail "new")
                sharing))
    (BehaviorTester.Entries longer) !! (0 + 1 - 0)
  = Some (basicEntryBuilder_Fail "new").
Proof.
  split; [reflexivity | ]. split; [reflexivity | ]. split; [lia | ].
  split; [discriminate | ]. split; [reflexivity | ]. split; [reflexivity | ].
  split; [lia | ].
  apply (@call_overwrites_shared_cell unit plainSprintf twice sharing 0 1
           shorter longer None basic (CFail "new") 0 0 1 4 0 2 4);
    first [reflexivity | lia | discriminate].
Defined.

(** Two testers on one array: a failure reported to the tester at 0
    replaces the second entry of the tester at 1, whose [Failed] flag
    stays unset beside the failed entry it now holds. *)
Example shared_array_is_overwritten :
  exists σ',
    perform plainSprintf twice (behavior.mk None (Some 0) (Some basic))
      (CFail "new") sharing
    = (Ok tt, σ')
    /\ elems sharing (BehaviorTester.Entries longer)
       = [basicEntryBuilder_Pass "ok"; basicEntryBuilder_Pass "old"]
    /\ testers σ' !! 1 = Some longer
    /\ elems σ' (BehaviorTester.Entries longer)
       = [basicEntryBuilder_Pass "ok"; basicEntryBuilder_Fail "new"]
    /\ BehaviorTester.Failed longer = false.
Proof.
  eexists. split; [reflexivity | ].
  repeat split; vm_compute; reflexivity.
Qed.

(** The flags follow the method that is called, not the entry: a builder
    of another kind leaves the agreement behind. *)
Example terse_builder_sets_flag_without_status :
  exists σ',
    perform (fun format _ => format) twice
      (behavior.mk None (Some 0) (Some terse)) (CFail "boom")
      {| testers := {[ 0 := blank ]}; cells := ∅; next := 0 |}
    = (Ok tt, σ')
    /\ testers σ' !! 0
       = Some (BehaviorTester.mk None true false (slice.mk 0 0 1 1))
    /\ elems σ' (slice.mk 0 0 1 1) = [any_dyn "boom"].
Proof. eexists. split; [reflexivity | ]. split; vm_compute; reflexivity. Qed.

End record_spec.
